(** * Package retry: the Attempt loop-control state machine

    A shallow embedding of [src/retry/retry.go] (Start, Attempt.Next,
    Attempt.Count, Attempt.HasNext), of the mock clock and the strategy test
    driver of [src/retry/retry_test.go], and the properties of the
    specification that concern them.

    Conventions.
    - [time.Time] and [time.Duration] are integers counting nanoseconds; a
      [float64] is a binary64 number of [SpecFloat].
    - Go's [int] (the attempt counter) is a 64-bit two's-complement integer;
      [count++] is written with its wrap-around.
    - [Strategy], [Timer] and [clock.Clock] are interfaces in the source;
      they are type classes and a record of operations here.
    - Everything outside the Attempt (the clocks, the channels, the Go
      scheduler) is a world [W].  The [select] statement of HasNext is an
      operation of that world which may never return ([None]).
    - Every effect of an Attempt method is recorded in a ghost trace, so that
      "performs no wait" and "does not query the Timer" can be stated. *)

From Stdlib Require Import ZArith List Bool Lia SpecFloat.
Import ListNotations.
Open Scope Z_scope.

(** ** Basic data *)

Definition Time := Z.
Definition Duration := Z.

(** Go's [int] on 64-bit platforms. *)
Definition max_int : Z := 2 ^ 63 - 1.
Definition min_int : Z := - 2 ^ 63.
Definition wrap_int (z : Z) : Z := (z + 2 ^ 63) mod 2 ^ 64 - 2 ^ 63.

(** [type Timer interface { NextSleep(now time.Time) (time.Duration, bool) }]:
    a timer is a state of type [T]; NextSleep returns the sleep, the
    continue flag and the timer's next state. *)
Class Timer (T : Type) := {
  NextSleep : T -> Time -> (Duration * bool) * T
}.

(** [type Strategy interface { NewTimer(now time.Time) Timer }]. *)
Class Strategy (S T : Type) := {
  NewTimer : S -> Time -> T
}.

(** The two cases of the [select] in HasNext. *)
Inductive SelectCase := CaseAfter | CaseStop.

(** The effects an Attempt method can have on its collaborators. *)
Inductive Event :=
| EvNow
| EvNextSleep (now : Time)
| EvAfter (d : Duration)
| EvSelect.

Definition is_wait (e : Event) : bool :=
  match e with EvSelect => true | _ => false end.

Definition is_query (e : Event) : bool :=
  match e with EvNextSleep _ => true | _ => false end.

Definition waits (tr : list Event) : nat := length (filter is_wait tr).
Definition queries (tr : list Event) : nat := length (filter is_query tr).

(** ** The Attempt *)

Section Retry.

Variable W : Type.
Variable Chan : Type.

(** [clock.Clock], as far as the package uses it. *)
Record Clock := {
  Now : W -> Time * W;
  After : Duration -> W -> Chan * W
}.

(** [clock.WallClock], the default of Start. *)
Variable WallClock : Clock.

(** The runtime's [select] over a timer channel and the stop channel ([None]
    is the nil channel): the case that was chosen and the world then, or
    [None] when neither channel ever becomes ready. *)
Variable select_recv : Chan -> option Chan -> W -> option (SelectCase * W).

Context {T : Type} {TimerT : Timer T}.

Record Attempt := {
  clock : Clock;
  stop : option Chan;
  timer : T;
  count : Z;
  waited : bool;
  running : bool
}.

Definition set_timer (t : T) (a : Attempt) : Attempt :=
  {| clock := clock a; stop := stop a; timer := t; count := count a;
     waited := waited a; running := running a |}.

Definition set_count (n : Z) (a : Attempt) : Attempt :=
  {| clock := clock a; stop := stop a; timer := timer a; count := n;
     waited := waited a; running := running a |}.

Definition set_waited (b : bool) (a : Attempt) : Attempt :=
  {| clock := clock a; stop := stop a; timer := timer a; count := count a;
     waited := b; running := running a |}.

Definition set_running (b : bool) (a : Attempt) : Attempt :=
  {| clock := clock a; stop := stop a; timer := timer a; count := count a;
     waited := waited a; running := b |}.

(** The Attempt under consideration ([a *Attempt]), the world and the trace. *)
Record Sys := {
  att : Attempt;
  world : W;
  trace : list Event
}.

(** State monad over [Sys]; [None] is a call that never returns. *)
Definition M (A : Type) : Type := Sys -> option (A * Sys).

Definition ret {A : Type} (x : A) : M A := fun s => Some (x, s).

Definition bind {A B : Type} (m : M A) (f : A -> M B) : M B :=
  fun s => match m s with
           | Some (x, s') => f x s'
           | None => None
           end.

Notation "x <- m ;; k" := (bind m (fun x => k))
  (at level 61, m at next level, right associativity).
Notation "m ;;; k" := (bind m (fun _ => k))
  (at level 61, right associativity).

Definition get_att : M Attempt := fun s => Some (att s, s).

Definition modify_att (f : Attempt -> Attempt) : M unit :=
  fun s => Some (tt, {| att := f (att s); world := world s; trace := trace s |}).

Definition clock_Now : M Time :=
  fun s =>
    let (t, w) := Now (clock (att s)) (world s) in
    Some (t, {| att := att s; world := w; trace := trace s ++ [EvNow] |}).

Definition timer_NextSleep (now : Time) : M (Duration * bool) :=
  fun s =>
    let (r, t) := NextSleep (timer (att s)) now in
    Some (r, {| att := set_timer t (att s); world := world s;
                trace := trace s ++ [EvNextSleep now] |}).

Definition clock_After (d : Duration) : M Chan :=
  fun s =>
    let (c, w) := After (clock (att s)) d (world s) in
    Some (c, {| att := att s; world := w; trace := trace s ++ [EvAfter d] |}).

Definition select_After_stop (c : Chan) : M SelectCase :=
  fun s =>
    match select_recv c (stop (att s)) (world s) with
    | Some (k, w) =>
        Some (k, {| att := att s; world := w; trace := trace s ++ [EvSelect] |})
    | None => None
    end.

(** [func Start(strategy Strategy, clk clock.Clock, stop <-chan struct{}) *Attempt] *)
Definition Start {S : Type} {StrategyS : Strategy S T}
    (strategy : S) (clk : option Clock) (stp : option Chan) (w : W) : Sys :=
  let clk := match clk with None => WallClock | Some c => c end in
  let (now, w') := Now clk w in
  {| att := {| clock := clk; stop := stp; timer := NewTimer strategy now;
               count := 0; waited := true; running := true |};
     world := w';
     trace := [EvNow] |}.

(** [func (a *Attempt) HasNext() bool] *)
Definition HasNext : M bool :=
  a <- get_att ;;
  if waited a || negb (running a) then ret (running a)
  else
    modify_att (set_waited true) ;;;
    now <- clock_Now ;;
    r <- timer_NextSleep now ;;
    let (sleep, ok) := r in
    if negb ok then
      modify_att (set_running false) ;;;
      ret false
    else
      modify_att (set_waited true) ;;;
      c <- clock_After sleep ;;
      k <- select_After_stop c ;;
      match k with
      | CaseAfter => ret tt
      | CaseStop => modify_att (set_running false)
      end ;;;
      a' <- get_att ;;
      ret (running a').

(** [func (a *Attempt) Next() bool] *)
Definition Next : M bool :=
  HasNext ;;;
  modify_att (set_waited false) ;;;
  a <- get_att ;;
  (if running a then modify_att (set_count (wrap_int (count a + 1)))
   else ret tt) ;;;
  a' <- get_att ;;
  ret (running a').

(** [func (a *Attempt) Count() int] *)
Definition Count : M Z :=
  a <- get_att ;;
  ret (count a).

(** ** Sequences of calls

    What a caller can do with an Attempt: call its three methods, and let
    anything else happen in between (time passes, the stop channel is closed,
    a mock clock is set), which is a change of the world. *)

Inductive Call :=
| CallNext
| CallHasNext
| CallCount
| CallEnv (f : W -> W).

Inductive Result :=
| RNext (b : bool)
| RHasNext (b : bool)
| RCount (n : Z)
| REnv.

Definition env_step (f : W -> W) : M unit :=
  fun s => Some (tt, {| att := att s; world := f (world s); trace := trace s |}).

Definition call (c : Call) : M Result :=
  match c with
  | CallNext => b <- Next ;; ret (RNext b)
  | CallHasNext => b <- HasNext ;; ret (RHasNext b)
  | CallCount => n <- Count ;; ret (RCount n)
  | CallEnv f => env_step f ;;; ret REnv
  end.

Fixpoint run (cs : list Call) : M (list Result) :=
  match cs with
  | [] => ret []
  | c :: cs' => r <- call c ;; rs <- run cs' ;; ret (r :: rs)
  end.

Definition is_Next (c : Call) : bool :=
  match c with CallNext => true | _ => false end.

(** No call of Next in the sequence. *)
Definition no_Next (cs : list Call) : bool := forallb (fun c => negb (is_Next c)) cs.

(** The Next calls of a sequence that returned true. *)
Definition is_granted (r : Result) : bool :=
  match r with RNext true => true | _ => false end.

Definition granted (rs : list Result) : Z := Z.of_nat (length (filter is_granted rs)).

(** The booleans returned by Next and HasNext calls. *)
Definition returned (rs : list Result) (b : bool) : Prop :=
  In (RNext b) rs \/ In (RHasNext b) rs.

(** Did the [select] take the timer case? *)
Definition is_After (k : SelectCase) : bool :=
  match k with CaseAfter => true | CaseStop => false end.

(** The Attempt after the part of Next that follows its call of HasNext. *)
Definition after_Next (s1 : Sys) : Sys :=
  {| att := {| clock := clock (att s1); stop := stop (att s1);
               timer := timer (att s1);
               count := if running (att s1)
                        then wrap_int (count (att s1) + 1)
                        else count (att s1);
               waited := false;
               running := running (att s1) |};
     world := world s1;
     trace := trace s1 |}.

(** The fields of an Attempt a caller can observe through its methods. *)
Definition observable (a : Attempt) : Z * bool * bool :=
  (count a, waited a, running a).

(** States a caller can reach from a started Attempt. *)
Inductive reachable (s0 : Sys) : Sys -> Prop :=
| reach_start : reachable s0 s0
| reach_call : forall s c r s',
    reachable s0 s -> call c s = Some (r, s') -> reachable s0 s'.

(** ** The [select] statement

    [ready c w]: a receive from [c] can proceed in world [w].  Go chooses a
    case that can proceed; when only one can, that one; a nil channel is
    never chosen; when none can, the statement blocks until one can. *)

Variable ready : Chan -> W -> bool.

Definition ready_opt (c : option Chan) (w : W) : bool :=
  match c with
  | Some c' => ready c' w
  | None => false
  end.

Definition GoSelect : Prop :=
  forall c s w,
    (s = None ->
     forall k w', select_recv c s w = Some (k, w') -> k = CaseAfter) /\
    match ready c w, ready_opt s w with
    | true, false => exists w', select_recv c s w = Some (CaseAfter, w')
    | false, true => exists w', select_recv c s w = Some (CaseStop, w')
    | true, true => select_recv c s w <> None
    | false, false => True
    end.

End Retry.

Arguments Now {W Chan}.
Arguments After {W Chan}.
Arguments Attempt W Chan T : clear implicits.
Arguments Sys W Chan T : clear implicits.
Arguments clock {W Chan T}.
Arguments stop {W Chan T}.
Arguments timer {W Chan T}.
Arguments count {W Chan T}.
Arguments waited {W Chan T}.
Arguments running {W Chan T}.
Arguments att {W Chan T}.
Arguments world {W Chan T}.
Arguments trace {W Chan T}.
Arguments set_timer {W Chan T}.
Arguments set_count {W Chan T}.
Arguments set_waited {W Chan T}.
Arguments set_running {W Chan T}.
Arguments observable {W Chan T}.
Arguments after_Next {W Chan T}.
Arguments Start {W Chan} WallClock {T S StrategyS}.
Arguments HasNext {W Chan} select_recv {T TimerT} : simpl never.
Arguments Next {W Chan} select_recv {T TimerT} : simpl never.
Arguments Count {W Chan T}.
Arguments ret {W Chan T A}.
Arguments bind {W Chan T A B}.
Arguments Call W : clear implicits.
Arguments CallNext {W}.
Arguments CallHasNext {W}.
Arguments CallCount {W}.
Arguments CallEnv {W}.
Arguments call {W Chan} select_recv {T TimerT}.
Arguments run {W Chan} select_recv {T TimerT}.
Arguments is_Next {W}.
Arguments no_Next {W}.
Arguments env_step {W Chan T}.
Arguments reachable {W Chan} select_recv {T TimerT}.
Arguments GoSelect {W Chan}.
Arguments ready_opt {W Chan}.

(** ** A simulated world

    One concrete world for running the Attempt: a wall clock that only moves
    while a [select] blocks or when the caller lets time pass, the mock clock
    of [retry_test.go], a stop channel that is closed at a given instant (or
    never), and the choices the scheduler makes when both cases of a
    [select] can proceed. *)

Module Sim.

Inductive chan :=
| TimerChan (deadline : Time)
| ClosedChan
| StopChan.

Record world := {
  wall : Time;
  mock_now : Time;
  stop_at : option Time;
  picks : list SelectCase
}.

Definition set_wall (t : Time) (w : world) : world :=
  {| wall := t; mock_now := mock_now w; stop_at := stop_at w; picks := picks w |}.

Definition set_mock_now (t : Time) (w : world) : world :=
  {| wall := wall w; mock_now := t; stop_at := stop_at w; picks := picks w |}.

Definition ready (c : chan) (w : world) : bool :=
  match c with
  | TimerChan d => d <=? wall w
  | ClosedChan => true
  | StopChan => match stop_at w with
                | Some t => t <=? wall w
                | None => false
                end
  end.

(** The instant from which a receive can proceed, if any. *)
Definition ready_time (c : chan) (w : world) : option Time :=
  match c with
  | TimerChan d => Some d
  | ClosedChan => Some (wall w)
  | StopChan => stop_at w
  end.

Definition pick (w : world) : SelectCase * world :=
  match picks w with
  | k :: ks => (k, {| wall := wall w; mock_now := mock_now w;
                      stop_at := stop_at w; picks := ks |})
  | [] => (CaseAfter, w)
  end.

Definition select_recv (c : chan) (s : option chan) (w : world)
  : option (SelectCase * world) :=
  match ready c w, ready_opt ready s w with
  | true, false => Some (CaseAfter, w)
  | false, true => Some (CaseStop, w)
  | true, true => Some (pick w)
  | false, false =>
      match ready_time c w, match s with
                            | Some c' => ready_time c' w
                            | None => None
                            end with
      | Some d, Some t =>
          if d <? t then Some (CaseAfter, set_wall d w)
          else if t <? d then Some (CaseStop, set_wall t w)
          else Some (pick (set_wall d w))
      | Some d, None => Some (CaseAfter, set_wall d w)
      | None, Some t => Some (CaseStop, set_wall t w)
      | None, None => None
      end
  end.

(** A clock that reads the wall time; its After channel is ready from the
    deadline on. *)
Definition wallClock : Clock world chan :=
  {| Now := fun w => (wall w, w);
     After := fun d w => (TimerChan (wall w + d), w) |}.

(** [type mockClock struct { now time.Time; ... }] of [retry_test.go]:
    After moves the clock by [d] and returns a closed channel. *)
Definition mockClock : Clock world chan :=
  {| Now := fun w => (mock_now w, w);
     After := fun d w => (ClosedChan, set_mock_now (mock_now w + d) w) |}.

End Sim.

(** ** Timers used as fixtures *)

(** A timer that plays a script of answers and then reports stop. *)
#[export] Instance scriptTimer : Timer (list (Duration * bool)) := {
  NextSleep := fun script _ =>
    match script with
    | r :: rest => (r, rest)
    | [] => ((0, false), [])
    end
}.

#[export] Instance scriptStrategy
  : Strategy (list (Duration * bool)) (list (Duration * bool)) := {
  NewTimer := fun script _ => script
}.

(** A timer that always asks for the same sleep and never reports stop. *)
Record steady := {
  steady_sleep : Duration
}.

#[export] Instance steadyTimer : Timer steady := {
  NextSleep := fun tm _ => ((steady_sleep tm, true), tm)
}.

#[export] Instance steadyStrategy : Strategy steady steady := {
  NewTimer := fun s _ => s
}.

(** ** The concrete strategies *)

Record Regular := {
  Total : Duration;
  Delay : Duration;
  Min : Z
}.

(** The cursor of a regular timer: when it was made, the instant of the
    latest attempt, and the attempts so far. *)
Record regularTimer := {
  r_strategy : Regular;
  r_start : Time;
  r_last : Time;
  r_attempts : Z
}.

(** Modelled from the spec: Regular.NewTimer is not among the source files.
    "On construction records start time"; the timer is first asked after the
    first attempt, which is granted unconditionally, so one attempt has been
    made by then, at the start. *)
Definition Regular_NewTimer (r : Regular) (now : Time) : regularTimer :=
  {| r_strategy := r; r_start := now; r_last := now; r_attempts := 1 |}.

(** Modelled from the spec: regularTimer.NextSleep is not among the source
    files.  "Fixed delay between attempts."  "If attempts-so-far < min, always
    continue with delay sleep (ignoring total budget).  Otherwise compute the
    next scheduled instant ...; if that instant is already <= now, sleep is 0;
    else sleep = instant - now.  Continue only if (now + sleep) would not
    exceed start + total."  "Edge case: total=0 and delay=0 yields exactly
    one attempt (the guaranteed first) then stops."

    Two points follow what the spec's edge case and the strategy tests of
    [retry_test.go] require.  The next scheduled instant is one delay after
    the latest attempt: that is the spec's start + delay × attemptsSoFar as
    long as no call has come late, and one delay after the late attempt
    otherwise ("we get a zero delay, but subsequent events resume pace").
    And an attempt that would fall on the end of the budget or after it is
    not made, so that with total = 0 and delay = 0 the timer stops at once.
    Instants are unbounded integers. *)
Definition Regular_NextSleep (tm : regularTimer) (now : Time)
  : (Duration * bool) * regularTimer :=
  let r := r_strategy tm in
  if r_attempts tm <? Min r then
    ((Delay r, true),
     {| r_strategy := r; r_start := r_start tm; r_last := now + Delay r;
        r_attempts := r_attempts tm + 1 |})
  else
    let instant := r_last tm + Delay r in
    let sleep := if instant <=? now then 0 else instant - now in
    if now + sleep <? r_start tm + Total r then
      ((sleep, true),
       {| r_strategy := r; r_start := r_start tm; r_last := now + sleep;
          r_attempts := r_attempts tm + 1 |})
    else ((0, false), tm).

#[export] Instance Regular_Timer : Timer regularTimer := {
  NextSleep := Regular_NextSleep
}.

#[export] Instance Regular_Strategy : Strategy Regular regularTimer := {
  NewTimer := Regular_NewTimer
}.

(** [float64]: the binary64 numbers, with the conversions of Go. *)
Definition float64 : Type := spec_float.

Definition prec64 : Z := 53.
Definition emax64 : Z := 1024.

(** [m × 2^e] rounded to the nearest [float64]. *)
Definition float64_of (m e : Z) : float64 := binary_normalize prec64 emax64 m e false.

(** [float64(d)] for an [int64]. *)
Definition float64_of_int64 (d : Z) : float64 := float64_of d 0.

Definition float64_mul (x y : float64) : float64 := SFmul prec64 emax64 x y.

(** The integer part of a finite [float64]. *)
Definition float64_trunc (f : float64) : option Z :=
  match f with
  | S754_zero _ => Some 0
  | S754_finite s m e =>
      let v := if 0 <=? e then Z.pos m * 2 ^ e else Z.pos m / 2 ^ (- e) in
      Some (if s then - v else v)
  | S754_infinity _ => None
  | S754_nan => None
  end.

(** [int64(f)]: the fraction is dropped.  What Go yields when the value does
    not fit is left to the implementation; the most negative [int64], which
    is what amd64 gives, is taken. *)
Definition int64_of_float64 (f : float64) : Z :=
  match float64_trunc f with
  | Some v => if (min_int <=? v) && (v <=? max_int) then v else min_int
  | None => min_int
  end.

(** [retry.Exponential{Initial: 1e9, Factor: 2}] in [retry_test.go]. *)
Record Exponential := {
  Initial : Duration;
  Factor : float64
}.

(** The cursor of an exponential timer: the instant of the latest attempt
    and the delay that leads to the next one. *)
Record exponentialTimer := {
  e_strategy : Exponential;
  e_last : Time;
  e_delay : Duration
}.

(** Modelled from the spec: the arithmetic of the exponential timer is not
    among the source files.  "Multiplies by a factor": the product is taken
    in floating point, whose inaccuracies [closeTo] of [retry_test.go] caters
    for, and converted back, [time.Duration(float64(d) * f)]. *)
Definition scale (f : float64) (d : Duration) : Duration :=
  int64_of_float64 (float64_mul (float64_of_int64 d) f).

(** Modelled from the spec: Exponential.NewTimer is not among the source
    files.  "Delay starts at an initial value": the first attempt is made at
    the start, the next one is due [initial] later. *)
Definition Exponential_NewTimer (e : Exponential) (now : Time) : exponentialTimer :=
  {| e_strategy := e; e_last := now; e_delay := Initial e |}.

(** Modelled from the spec: exponentialTimer.NextSleep is not among the source
    files.  "Delay starts at an initial value and multiplies by a factor each
    attempt"; "first sleep is initial; each subsequent sleep multiplies the
    previous by factor.  Never terminates on its own (continue is always
    true)."  As for the regular timer, these are the delays between attempts:
    the next attempt is due one delay after the latest one, and the sleep
    returned is what is left until then, 0 when nothing is ("if called late,
    the returned sleep should be zero or reduced"; Scenario B: with initial
    1e9, a query 0.1e9 after the start sleeps 0.9e9).  Instants are unbounded
    integers; the delay is an [int64] and the factor a [float64]. *)
Definition Exponential_NextSleep (tm : exponentialTimer) (now : Time)
  : (Duration * bool) * exponentialTimer :=
  let instant := e_last tm + e_delay tm in
  let sleep := if instant <=? now then 0 else instant - now in
  ((sleep, true),
   {| e_strategy := e_strategy tm;
      e_last := now + sleep;
      e_delay := scale (Factor (e_strategy tm)) (e_delay tm) |}).

#[export] Instance Exponential_Timer : Timer exponentialTimer := {
  NextSleep := Exponential_NextSleep
}.

#[export] Instance Exponential_Strategy : Strategy Exponential exponentialTimer := {
  NewTimer := Exponential_NewTimer
}.

(** The [k]-th delay of an exponential strategy. *)
Fixpoint nth_sleep (f : float64) (initial : Duration) (k : nat) : Duration :=
  match k with
  | O => initial
  | S k' => scale f (nth_sleep f initial k')
  end.

(** ** The strategy test driver of [retry_test.go] *)

(** [type nextCall struct { t, sleep time.Duration }] *)
Record nextCall := {
  t : Duration;
  sleep : Duration
}.

(** [func closeTo(d0, d1 time.Duration) bool] on [int64] durations, the
    subtraction and the negation with their wrap-around. *)
Definition closeTo_int64 (d0 d1 : Duration) : bool :=
  let diff := wrap_int (d1 - d0) in
  let diff := if diff <? 0 then wrap_int (- diff) else diff in
  diff <? 20.

(** [func (t Time) Sub(u Time) Duration]: the difference, or the largest or
    smallest duration when it does not fit. *)
Definition Time_Sub (a b : Time) : Duration :=
  Z.max min_int (Z.min max_int (a - b)).

Section Driver.

Context {T : Type} {TimerT : Timer T}.

(** The loop of [testStrategy], reporting what it observes instead of
    asserting: for each call the mock clock is set to [t0 + t], Next is
    called, and the result of Next, the time the clock moved during the call
    and the counter are recorded. *)
Fixpoint observe (t0 : Time) (ts : list Duration) (s : Sys Sim.world Sim.chan T)
  : option (list (bool * Duration * Z)) :=
  match ts with
  | [] => Some []
  | ti :: ts' =>
      let s1 := {| att := att s;
                   world := Sim.set_mock_now (t0 + ti) (world s);
                   trace := trace s |} in
      match Next Sim.select_recv s1 with
      | None => None
      | Some (ok, s2) =>
          match observe t0 ts' s2 with
          | None => None
          | Some obs =>
              Some ((ok, Sim.mock_now (world s2) - t0 - ti, count (att s2)) :: obs)
          end
      end
  end.

(** The assertions of [testStrategy] on the [i]-th call, [n] calls in all:
    [got] is [clk.now.Sub(t0)], the clock having been set to [t0 + t] and
    moved by [slept], and [want] is [call.t + call.sleep]. *)
Definition call_passes (terminates : bool) (n i : nat) (c : nextCall)
    (o : bool * Duration * Z) : bool :=
  let '(ok, slept, cnt) := o in
  let expectTerminate := terminates && (i =? n - 1)%nat in
  let got := Time_Sub (t c + slept) 0 in
  let want := wrap_int (t c + sleep c) in
  Bool.eqb ok (negb expectTerminate)
  && closeTo_int64 got want
  && (if ok then cnt =? Z.of_nat i + 1 else true).

Fixpoint calls_pass (terminates : bool) (n i : nat) (cs : list nextCall)
    (obs : list (bool * Duration * Z)) : bool :=
  match cs, obs with
  | [], [] => true
  | c :: cs', o :: obs' =>
      call_passes terminates n i c o && calls_pass terminates n (S i) cs' obs'
  | _, _ => false
  end.

End Driver.

(** The set-up of [testStrategy]: [t0 := time.Now()], a mock clock reading
    [t0], [retry.Start(test.strategy, clk, nil)], then the loop. *)
Definition observeStrategy {S T : Type} {TimerT : Timer T} {StrategyS : Strategy S T}
    (strategy : S) (ts : list Duration) (w : Sim.world)
  : option (list (bool * Duration * Z)) :=
  let t0 := Sim.wall w in
  observe t0 ts
    (Start Sim.wallClock strategy (Some Sim.mockClock) None (Sim.set_mock_now t0 w)).

(** [func testStrategy(c *gc.C, test strategyTest)]: does every assertion
    hold? *)
Definition testStrategy {S T : Type} {TimerT : Timer T} {StrategyS : Strategy S T}
    (strategy : S) (calls : list nextCall) (terminates : bool)
    (w : Sim.world) : option bool :=
  match observeStrategy strategy (map t calls) w with
  | None => None
  | Some obs => Some (calls_pass terminates (length calls) 0 calls obs)
  end.

(** Entries of [strategyTests]: "regular retry (same params as
    TestAttemptTiming)", "regular retry with calls at different times",
    "regular retry with call after next deadline" and "exponential retry". *)
Definition regular_timing : Regular :=
  {| Total := 250000000; Delay := 100000000; Min := 0 |}.

Definition regular_timing_calls : list nextCall :=
  [ {| t := 0; sleep := 0 |};
    {| t := 0; sleep := 100000000 |};
    {| t := 100000000; sleep := 100000000 |};
    {| t := 200000000; sleep := 0 |} ].

Definition regular_times : Regular :=
  {| Total := 2500000000; Delay := 1000000000; Min := 0 |}.

Definition regular_times_calls : list nextCall :=
  [ {| t := 500000000; sleep := 0 |};
    {| t := 500000000; sleep := 500000000 |};
    {| t := 1100000000; sleep := 900000000 |};
    {| t := 2200000000; sleep := 0 |} ].

Definition regular_late : Regular :=
  {| Total := 3500000000; Delay := 1000000000; Min := 0 |}.

Definition regular_late_calls : list nextCall :=
  [ {| t := 500000000; sleep := 0 |};
    {| t := 2000000000; sleep := 0 |};
    {| t := 2100000000; sleep := 900000000 |};
    {| t := 3000000000; sleep := 0 |} ].

Definition exponential_double : Exponential :=
  {| Initial := 1000000000; Factor := float64_of 2 0 |}.

Definition exponential_double_calls : list nextCall :=
  [ {| t := 0; sleep := 0 |};
    {| t := 100000000; sleep := 900000000 |};
    {| t := 1000000000; sleep := 2000000000 |};
    {| t := 3000000000; sleep := 4000000000 |};
    {| t := 7000000000; sleep := 8000000000 |} ].

(** [retry.Regular{}], [retry.Regular{Total: 2e8}] and
    [retry.Regular{Total: 1e8, Min: 2}] of TestAttemptNextHasNext. *)
Definition regular_zero : Regular :=
  {| Total := 0; Delay := 0; Min := 0 |}.

Definition regular_total : Regular :=
  {| Total := 200000000; Delay := 0; Min := 0 |}.

Definition regular_min2 : Regular :=
  {| Total := 100000000; Delay := 0; Min := 2 |}.

(** An Attempt on the mock clock, with no stop channel. *)
Definition mock_sys {T : Type} (tm : T) (n : Z) (wt rn : bool)
    (w : Sim.world) (tr : list Event) : Sys Sim.world Sim.chan T :=
  {| att := {| clock := Sim.mockClock; stop := None; timer := tm;
               count := n; waited := wt; running := rn |};
     world := w;
     trace := tr |}.

(** The timer after it has been asked at the given instants. *)
Fixpoint after_queries {T : Type} {TimerT : Timer T} (tm : T) (nows : list Time) : T :=
  match nows with
  | [] => tm
  | now :: nows' => after_queries (snd (NextSleep tm now)) nows'
  end.

(** The answers of a timer asked at the given instants, one after the other. *)
Fixpoint ask {T : Type} {TimerT : Timer T} (tm : T) (nows : list Time)
  : list (Duration * bool) :=
  match nows with
  | [] => []
  | now :: nows' =>
      let (r, tm') := NextSleep tm now in
      r :: ask tm' nows'
  end.


(** ** Worlds and Attempts used in examples *)

(** Nothing is scheduled and the stop channel is never closed. *)
Definition w_idle : Sim.world :=
  {| Sim.wall := 0; Sim.mock_now := 0; Sim.stop_at := None; Sim.picks := [] |}.

(** The stop channel was closed at instant 5 and it is instant 10; the
    scheduler takes the timer case when it has the choice. *)
Definition w_stopped : Sim.world :=
  {| Sim.wall := 10; Sim.mock_now := 10; Sim.stop_at := Some 5;
     Sim.picks := [CaseAfter] |}.

(** A started Attempt, after its first and after its second Next. *)
Definition s_started : Sys Sim.world Sim.chan (list (Duration * bool)) :=
  Start Sim.wallClock [(7, true); (3, false)] None None w_idle.

Definition s_first : Sys Sim.world Sim.chan (list (Duration * bool)) :=
  {| att := {| clock := Sim.wallClock; stop := None;
               timer := [(7, true); (3, false)];
               count := 1; waited := false; running := true |};
     world := w_idle;
     trace := [EvNow] |}.

Definition s_second : Sys Sim.world Sim.chan (list (Duration * bool)) :=
  {| att := {| clock := Sim.wallClock; stop := None;
               timer := [(3, false)];
               count := 2; waited := false; running := true |};
     world := Sim.set_wall 7 w_idle;
     trace := [EvNow; EvNow; EvNextSleep 0; EvAfter 7; EvSelect] |}.

(** An Attempt after its first Next: a wait is owed. *)
Definition s_owed : Sys Sim.world Sim.chan (list (Duration * bool)) :=
  {| att := {| clock := Sim.wallClock; stop := None;
               timer := [(7, true); (3, false)];
               count := 1; waited := false; running := true |};
     world := w_idle;
     trace := [] |}.

(** The same Attempt after HasNext has waited the 7ns. *)
Definition s_waited : Sys Sim.world Sim.chan (list (Duration * bool)) :=
  {| att := {| clock := Sim.wallClock; stop := None;
               timer := [(3, false)];
               count := 1; waited := true; running := true |};
     world := Sim.set_wall 7 w_idle;
     trace := [EvNow; EvNextSleep 0; EvAfter 7; EvSelect] |}.

(** An Attempt whose timer is about to report stop. *)
Definition s_last : Sys Sim.world Sim.chan (list (Duration * bool)) :=
  {| att := {| clock := Sim.wallClock; stop := Some Sim.StopChan;
               timer := [(3, false)];
               count := 2; waited := false; running := true |};
     world := w_idle;
     trace := [] |}.

(** The same Attempt after the Next that found the timer stopped. *)
Definition s_final : Sys Sim.world Sim.chan (list (Duration * bool)) :=
  {| att := {| clock := Sim.wallClock; stop := Some Sim.StopChan;
               timer := [];
               count := 2; waited := false; running := false |};
     world := w_idle;
     trace := [EvNow; EvNextSleep 0] |}.

(** An Attempt on the mock clock with a timer that never stops and never
    sleeps, after [n] attempts. *)
Definition s_steady (n : Z) (tr : list Event) : Sys Sim.world Sim.chan steady :=
  {| att := {| clock := Sim.mockClock; stop := None;
               timer := {| steady_sleep := 0 |};
               count := n; waited := false; running := true |};
     world := w_idle;
     trace := tr |}.

(** ** Further notions used in the properties of the code *)

Definition is_read (e : Event) : bool :=
  match e with EvNow => true | _ => false end.

Definition is_after_call (e : Event) : bool :=
  match e with EvAfter _ => true | _ => false end.

(** The calls of Now and of After in a trace. *)
Definition clock_reads (tr : list Event) : nat := length (filter is_read tr).
Definition after_calls (tr : list Event) : nat := length (filter is_after_call tr).

Section Usage.

Variable W : Type.
Variable Chan : Type.
Variable select_recv : Chan -> option Chan -> W -> option (SelectCase * W).
Context {T : Type} {TimerT : Timer T}.

(** Does the next HasNext have to ask the Timer and wait?  1 if so. *)
Definition owed (a : Attempt W Chan T) : Z :=
  if waited a || negb (running a) then 0 else 1.

(** The loop of the package documentation,
    [for a := someStrategy.Start(); a.Next(); { try() }], from the first call
    of Next on: [try] is what the body does to the world, [n] counts the runs
    of the body so far (the [n++] of TestAttemptWithStop).  The result is the
    final count, or [None] when [fuel] rounds were not enough; the whole is
    [None] when a call of Next does not return. *)
Fixpoint retry_loop (fuel : nat) (try : W -> W) (n : nat) (s : Sys W Chan T)
  : option (option nat * Sys W Chan T) :=
  match fuel with
  | O => Some (None, s)
  | S fuel' =>
      match Next select_recv s with
      | None => None
      | Some (true, s1) =>
          retry_loop fuel' try (S n)
            {| att := att s1; world := try (world s1); trace := trace s1 |}
      | Some (false, s1) => Some (Some n, s1)
      end
  end.

End Usage.

Arguments owed {W Chan T}.
Arguments retry_loop {W Chan} select_recv {T TimerT}.

(** ** The loop of ExampleAttempt_HasNext *)

Section Example.

Variable W : Type.
Variable Chan : Type.
Variable select_recv : Chan -> option Chan -> W -> option (SelectCase * W).
Context {T : Type} {TimerT : Timer T}.

(** The three functions the example calls: what they return and what they do
    to the world.  An [error] is [None] when it is nil. *)
Variable X : Type.
Variable E : Type.
Variable doSomething : W -> (X * option E) * W.
Variable shouldRetry : option E -> bool.
Variable doSomethingWith : X -> W -> W.

(** The two ways out: [// return err] inside the loop and
    [// return ErrTimedOut] after it. *)
Inductive Exit :=
| ReturnErr (e : E)
| TimedOut.

(** The loop from the first call of Next on.  [errs] records the error of
    each call of doSomething so far, in order; the result is the way out
    with that record, or [None] when [fuel] rounds were not enough. *)
Fixpoint example_loop (fuel : nat) (errs : list (option E)) (s : Sys W Chan T)
  : option (option (Exit * list (option E)) * Sys W Chan T) :=
  match fuel with
  | O => Some (None, s)
  | S fuel' =>
      match Next select_recv s with
      | None => None
      | Some (false, s1) => Some (Some (TimedOut, errs), s1)
      | Some (true, s1) =>
          let (r, w1) := doSomething (world s1) in
          let (x, err) := r in
          let s2 := {| att := att s1; world := w1; trace := trace s1 |} in
          let errs' := errs ++ [err] in
          let rest := fun s3 : Sys W Chan T =>
            match err with
            | Some e => Some (Some (ReturnErr e, errs'), s3)
            | None =>
                example_loop fuel' errs'
                  {| att := att s3; world := doSomethingWith x (world s3);
                     trace := trace s3 |}
            end in
          if shouldRetry err then
            match HasNext select_recv s2 with
            | None => None
            | Some (true, s3) => example_loop fuel' errs' s3
            | Some (false, s3) => rest s3
            end
          else rest s2
      end
  end.

End Example.

Arguments ReturnErr {E}.
Arguments TimedOut {E}.
Arguments example_loop {W Chan} select_recv {T TimerT X E}.

(** [func doSomething() (int, error) { return 0, nil }],
    [func shouldRetry(error) bool { return false }] and
    [func doSomethingWith(int) {}] of the example file. *)
Definition doSomething_stub {W : Type} (w : W) : (Z * option unit) * W :=
  ((0, None), w).

Definition shouldRetry_stub (err : option unit) : bool := false.

Definition doSomethingWith_stub {W : Type} (x : Z) (w : W) : W := w.

(** The answers of a script up to and without its first stop. *)
Fixpoint continues (script : list (Duration * bool)) : nat :=
  match script with
  | (_, true) :: rest => S (continues rest)
  | _ => O
  end.

(** What the loop of [testStrategy] must observe of a timer, call after
    call: the timer is asked at [t0 + t]; while it continues, Next returns
    true and the clock moves by the sleep; once it has stopped, Next returns
    false and the clock stays. *)
Fixpoint timer_answers {T : Type} {TimerT : Timer T} (tm : T) (t0 : Time)
    (ts : list Duration) : list (bool * Duration) :=
  match ts with
  | [] => []
  | ti :: ts' =>
      let (r, tm') := NextSleep tm (t0 + ti) in
      if snd r then (true, fst r) :: timer_answers tm' t0 ts'
      else (false, 0) :: map (fun _ => (false, 0)) ts'
  end.

(** A world in which nothing ever blocks: one clock that stands still, a
    timer channel that is always ready, a select that always takes it. *)
Definition still_clock : Clock unit unit :=
  {| Now := fun w => (0, w); After := fun _ w => (tt, w) |}.

Definition still_select (c : unit) (s : option unit) (w : unit)
  : option (SelectCase * unit) :=
  Some (CaseAfter, w).

Definition still_ready (c : unit) (w : unit) : bool := true.

(** An Attempt on the wall clock whose stop channel is closed already and
    whose timer asks for a sleep of 5s. *)
Definition s_cancelled : Sys Sim.world Sim.chan (list (Duration * bool)) :=
  {| att := {| clock := Sim.wallClock; stop := Some Sim.StopChan;
               timer := [(5000000000, true)];
               count := 1; waited := false; running := true |};
     world := w_stopped;
     trace := [] |}.

(** The started Attempt [s_started] when the loop over it has ended. *)
Definition s_exhausted : Sys Sim.world Sim.chan (list (Duration * bool)) :=
  {| att := {| clock := Sim.wallClock; stop := None;
               timer := [];
               count := 2; waited := false; running := false |};
     world := Sim.set_wall 7 w_idle;
     trace := [EvNow; EvNow; EvNextSleep 0; EvAfter 7; EvSelect;
               EvNow; EvNextSleep 7] |}.

(** A script that continues twice before it stops. *)
Definition script_twice : list (Duration * bool) :=
  [(7, true); (9, true); (3, false); (1, true)].

(** * Properties *)

Section RetryFacts.

Variable W : Type.
Variable Chan : Type.
Variable WallClock : Clock W Chan.
Variable select_recv : Chan -> option Chan -> W -> option (SelectCase * W).
Context {T : Type} {TimerT : Timer T}.


Lemma HasNext_idle (s : Sys W Chan T) :
  waited (att s) || negb (running (att s)) = true ->
  HasNext select_recv s = Some (running (att s), s).
Proof.
  intros H. unfold HasNext, bind, get_att. rewrite H. reflexivity.
Qed.

Lemma HasNext_owed (s : Sys W Chan T) :
  waited (att s) = false -> running (att s) = true ->
  HasNext select_recv s =
  let (now, w1) := Now (clock (att s)) (world s) in
  let (r, tm) := NextSleep (timer (att s)) now in
  let (d, ok) := r in
  if ok then
    let (c, w2) := After (clock (att s)) d w1 in
    match select_recv c (stop (att s)) w2 with
    | Some (k, w3) =>
        Some (is_After k,
              {| att := {| clock := clock (att s); stop := stop (att s);
                           timer := tm; count := count (att s);
                           waited := true; running := is_After k |};
                 world := w3;
                 trace := trace s ++ [EvNow; EvNextSleep now; EvAfter d; EvSelect] |})
    | None => None
    end
  else
    Some (false,
          {| att := {| clock := clock (att s); stop := stop (att s);
                       timer := tm; count := count (att s);
                       waited := true; running := false |};
             world := w1;
             trace := trace s ++ [EvNow; EvNextSleep now] |}).
Proof.
  intros Hw Hr. destruct s as [a w tr]. simpl in *.
  unfold HasNext, bind, get_att, modify_att, clock_Now, timer_NextSleep,
    clock_After, select_After_stop, ret. simpl.
  rewrite Hw, Hr. simpl.
  destruct (Now (clock a) w) as [now w1]. simpl.
  destruct (NextSleep (timer a) now) as [[d ok] tm]. simpl.
  destruct ok; simpl.
  - destruct (After (clock a) d w1) as [c w2]. simpl.
    destruct (select_recv c (stop a) w2) as [[k w3]|]; [|reflexivity].
    destruct k; unfold set_waited, set_timer, set_running; simpl; rewrite <- !app_assoc; simpl; try rewrite Hr; reflexivity.
  - unfold set_waited, set_timer, set_running; simpl. rewrite <- !app_assoc. reflexivity.
Qed.

Lemma Next_unfold (s : Sys W Chan T) :
  Next select_recv s =
  match HasNext select_recv s with
  | Some (_, s1) => Some (running (att s1), after_Next s1)
  | None => None
  end.
Proof.
  unfold Next at 1. unfold bind at 1.
  destruct (HasNext select_recv s) as [[b s1]|]; [|reflexivity].
  destruct s1 as [a w tr].
  unfold bind, modify_att, get_att, ret, after_Next, set_waited, set_count; simpl.
  destruct (running a); reflexivity.
Qed.

Lemma HasNext_post (s : Sys W Chan T) (b : bool) (s' : Sys W Chan T) :
  HasNext select_recv s = Some (b, s') ->
  b = running (att s') /\
  count (att s') = count (att s) /\
  clock (att s') = clock (att s) /\
  stop (att s') = stop (att s) /\
  waited (att s') || negb (running (att s')) = true /\
  (running (att s) = false -> s' = s) /\
  exists evs, trace s' = trace s ++ evs /\
              (waits evs <= 1)%nat /\ (queries evs <= 1)%nat.
Proof.
  intros H.
  destruct (waited (att s) || negb (running (att s))) eqn:E.
  - rewrite (HasNext_idle s E) in H. inversion H; subst s' b.
    repeat split; auto.
    exists []. rewrite app_nil_r. repeat split; auto.
  - apply orb_false_elim in E. destruct E as [Ew Er].
    apply negb_false_iff in Er.
    rewrite (HasNext_owed s Ew Er) in H.
    destruct (Now (clock (att s)) (world s)) as [now w1].
    destruct (NextSleep (timer (att s)) now) as [[d ok] tm].
    destruct ok.
    + destruct (After (clock (att s)) d w1) as [c w2].
      destruct (select_recv c (stop (att s)) w2) as [[k w3]|]; [|discriminate].
      inversion H; subst s' b; simpl.
      repeat split; auto; try congruence.
      eexists; split; [reflexivity|]. unfold waits, queries; split; simpl; lia.
    + inversion H; subst s' b; simpl.
      repeat split; auto; try congruence.
      eexists; split; [reflexivity|]. unfold waits, queries; split; simpl; lia.
Qed.

(** A call that is not Next, made when no wait is owed, changes nothing but
    the world (when it is a step of the environment). *)
Lemma call_idle (c : Call W) (s : Sys W Chan T) :
  is_Next c = false ->
  waited (att s) || negb (running (att s)) = true ->
  exists r s', call select_recv c s = Some (r, s') /\
               att s' = att s /\ trace s' = trace s /\
               (forall b, r = RHasNext b -> b = running (att s)).
Proof.
  intros Hc Hi. destruct c; try discriminate; simpl.
  - unfold bind. rewrite (HasNext_idle s Hi). simpl.
    eexists _, _. split; [reflexivity|]. repeat split; auto.
    intros b Hb. inversion Hb. reflexivity.
  - eexists _, _. split; [reflexivity|]. repeat split; auto.
    intros b Hb. discriminate.
  - eexists _, _. split; [reflexivity|]. repeat split; auto.
    intros b Hb. discriminate.
Qed.

Lemma run_idle (cs : list (Call W)) :
  no_Next cs = true ->
  forall s : Sys W Chan T,
    waited (att s) || negb (running (att s)) = true ->
    exists rs s', run select_recv cs s = Some (rs, s') /\
                  att s' = att s /\ trace s' = trace s /\
                  (forall b, In (RHasNext b) rs -> b = running (att s)).
Proof.
  induction cs as [|c cs IH]; intros Hn s Hi.
  - exists [], s. simpl. repeat split; auto. intros b [].
  - simpl in Hn. apply andb_true_iff in Hn. destruct Hn as [Hc Hn].
    apply negb_true_iff in Hc.
    destruct (call_idle c s Hc Hi) as (r & s1 & Hcall & Ha & Ht & Hr).
    assert (Hi1 : waited (att s1) || negb (running (att s1)) = true)
      by (rewrite Ha; exact Hi).
    destruct (IH Hn s1 Hi1) as (rs & s' & Hrun & Ha' & Ht' & Hrs).
    exists (r :: rs), s'. simpl. unfold bind at 1.
    rewrite Hcall. unfold bind at 1. rewrite Hrun. simpl.
    repeat split; try congruence.
    intros b [Hb | Hb].
    + apply Hr; auto.
    + rewrite <- Ha. apply Hrs; auto.
Qed.


Lemma call_not_running (c : Call W) (s : Sys W Chan T) :
  running (att s) = false ->
  exists r s', call select_recv c s = Some (r, s') /\
               running (att s') = false /\
               trace s' = trace s /\
               (forall b, returned [r] b -> b = false).
Proof.
  intros Hr.
  assert (Hi : waited (att s) || negb (running (att s)) = true)
    by (rewrite Hr; apply orb_true_r).
  destruct c; simpl.
  - unfold bind. rewrite Next_unfold, (HasNext_idle s Hi). simpl. rewrite Hr.
    eexists _, _. split; [reflexivity|]. simpl. rewrite Hr. repeat split; auto.
    intros b [[Hb|[]]|[Hb|[]]]; congruence.
  - unfold bind. rewrite (HasNext_idle s Hi). simpl. rewrite Hr.
    eexists _, _. split; [reflexivity|]. repeat split; auto.
    intros b [[Hb|[]]|[Hb|[]]]; congruence.
  - eexists _, _. split; [reflexivity|]. repeat split; auto.
    intros b [[Hb|[]]|[Hb|[]]]; congruence.
  - eexists _, _. split; [reflexivity|]. repeat split; auto.
    intros b [[Hb|[]]|[Hb|[]]]; congruence.
Qed.

Lemma run_not_running (cs : list (Call W)) :
  forall s : Sys W Chan T,
    running (att s) = false ->
    exists rs s', run select_recv cs s = Some (rs, s') /\
                  running (att s') = false /\
                  trace s' = trace s /\
                  (forall b, returned rs b -> b = false).
Proof.
  induction cs as [|c cs IH]; intros s Hr.
  - exists [], s. simpl. repeat split; auto. intros b [[]|[]].
  - destruct (call_not_running c s Hr) as (r & s1 & Hc & Hr1 & Ht1 & Hb1).
    destruct (IH s1 Hr1) as (rs & s' & Hrun & Hr' & Ht' & Hbs).
    exists (r :: rs), s'. simpl. unfold bind at 1. rewrite Hc.
    unfold bind at 1. rewrite Hrun. simpl.
    repeat split; try congruence.
    intros b Hb. unfold returned in *. simpl in *.
    destruct Hb as [[Hb|Hb]|[Hb|Hb]]; auto.
Qed.

(** C1.  For every strategy, clock and stop channel, and whatever happens
    between Start and the call, the first Next on a freshly started Attempt
    returns true; it has no effect on the collaborators (the trace is that of
    Start alone: the Timer is not queried and nothing is waited for), it
    leaves the Timer as NewTimer made it, and the count becomes 1. *)
Theorem first_Next_granted
    (S : Type) (StrategyS : Strategy S T) (strategy : S)
    (clk : option (Clock W Chan)) (stp : option Chan) (w : W) (f : W -> W) :
  let s0 := Start WallClock strategy clk stp w in
  exists s1,
    run select_recv [CallEnv f; CallNext] s0 = Some ([REnv; RNext true], s1) /\
    trace s1 = trace s0 /\
    queries (trace s1) = 0%nat /\
    waits (trace s1) = 0%nat /\
    timer (att s1) = timer (att s0) /\
    world s1 = f (world s0) /\
    count (att s1) = 1.
Proof.
  unfold Start.
  destruct (Now match clk with Some c => c | None => WallClock end w) as [now w'].
  simpl. eexists. split.
  - reflexivity.
  - simpl. repeat split; reflexivity.
Qed.

(** C2.  Once a call of HasNext has returned [b], any further calls that are
    not Next (HasNext again, any number of times, Count, and whatever the
    world does in between) all return, every HasNext among them returns [b],
    and the whole sequence, the first call included, has waited at most once
    and queried the Timer at most once. *)
Theorem HasNext_repeated (s : Sys W Chan T) (b : bool) (s1 : Sys W Chan T)
    (cs : list (Call W)) :
  HasNext select_recv s = Some (b, s1) ->
  no_Next cs = true ->
  exists rs s2,
    run select_recv cs s1 = Some (rs, s2) /\
    (forall b', In (RHasNext b') rs -> b' = b) /\
    exists evs, trace s2 = trace s ++ evs /\
                (waits evs <= 1)%nat /\ (queries evs <= 1)%nat.
Proof.
  intros H Hn.
  destruct (HasNext_post s b s1 H) as (Hb & _ & _ & _ & Hi & _ & evs & He & Hw & Hq).
  destruct (run_idle cs Hn s1 Hi) as (rs & s2 & Hrun & Ha & Ht & Hrs).
  exists rs, s2. split; [exact Hrun|]. split.
  - intros b' Hb'. rewrite Hb. apply Hrs; exact Hb'.
  - exists evs. rewrite Ht. auto.
Qed.

(** C3.  Once Next has returned false the Attempt is not running, and
    whatever is called afterwards (and whatever the world does in between),
    every call returns, every Next and HasNext returns false, and the Attempt
    is still not running. *)
Theorem Next_false_is_final (s s1 : Sys W Chan T) (cs : list (Call W)) :
  Next select_recv s = Some (false, s1) ->
  running (att s1) = false /\
  exists rs s2,
    run select_recv cs s1 = Some (rs, s2) /\
    (forall b, returned rs b -> b = false) /\
    running (att s2) = false.
Proof.
  intros H. rewrite Next_unfold in H.
  destruct (HasNext select_recv s) as [[b s']|]; [|discriminate].
  injection H as Hr Hs. subst s1.
  assert (Hr1 : running (att (after_Next s')) = false) by (simpl; exact Hr).
  split; [exact Hr1|].
  destruct (run_not_running cs _ Hr1) as (rs & s2 & Hrun & Hr2 & _ & Hb).
  exists rs, s2. auto.
Qed.

(** C5.  In every state of the Attempt, a call of HasNext that returns [b]
    leaves the counter as it was, and a Next that follows it (whatever the
    world does in between) returns [b]. *)
Theorem HasNext_predicts_Next (s : Sys W Chan T) (b : bool) (s1 : Sys W Chan T)
    (f : W -> W) :
  HasNext select_recv s = Some (b, s1) ->
  count (att s1) = count (att s) /\
  exists s2, run select_recv [CallEnv f; CallNext] s1 = Some ([REnv; RNext b], s2).
Proof.
  intros H.
  destruct (HasNext_post s b s1 H) as (Hb & Hc & _ & _ & Hi & _).
  split; [exact Hc|].
  simpl. unfold bind, env_step. simpl. rewrite Next_unfold.
  rewrite HasNext_idle by exact Hi. simpl. rewrite <- Hb.
  eexists. reflexivity.
Qed.

(** C10.  When a wait is owed and the Timer reports stop, HasNext returns
    false with the Attempt no longer running and its counter unchanged; its
    only effects are the reading of the clock and the query of the Timer (no
    After, no select: the stop channel is not looked at, the world is as Now
    left it), and the sleep [d] the Timer returned appears nowhere in the
    outcome. *)
Theorem HasNext_timer_stop (s : Sys W Chan T) (now : Time) (w1 : W)
    (d : Duration) (tm : T) :
  waited (att s) = false ->
  running (att s) = true ->
  Now (clock (att s)) (world s) = (now, w1) ->
  NextSleep (timer (att s)) now = ((d, false), tm) ->
  HasNext select_recv s =
  Some (false,
        {| att := {| clock := clock (att s); stop := stop (att s);
                     timer := tm; count := count (att s);
                     waited := true; running := false |};
           world := w1;
           trace := trace s ++ [EvNow; EvNextSleep now] |}).
Proof.
  intros Hw Hr HN HS. rewrite (HasNext_owed s Hw Hr), HN, HS. reflexivity.
Qed.


Lemma max_int_pos : 0 < max_int.
Proof. reflexivity. Qed.

Lemma min_int_neg : min_int < 0.
Proof. reflexivity. Qed.

Lemma wrap_int_small (z : Z) : min_int <= z <= max_int -> wrap_int z = z.
Proof.
  unfold min_int, max_int, wrap_int. intros H.
  rewrite Z.mod_small by lia. lia.
Qed.

Lemma call_count (c : Call W) (s : Sys W Chan T) (r : Result) (s' : Sys W Chan T) :
  call select_recv c s = Some (r, s') ->
  count (att s') =
  if is_granted r then wrap_int (count (att s) + 1) else count (att s).
Proof.
  destruct c; simpl; unfold bind.
  - rewrite Next_unfold.
    destruct (HasNext select_recv s) as [[b s1]|] eqn:E; [|discriminate].
    destruct (HasNext_post s b s1 E) as (_ & Hc & _).
    simpl. intros H. injection H as Hr Hs. subst r s'. simpl.
    destruct (running (att s1)); simpl; congruence.
  - destruct (HasNext select_recv s) as [[b s1]|] eqn:E; [|discriminate].
    destruct (HasNext_post s b s1 E) as (_ & Hc & _).
    simpl. intros H. injection H as Hr Hs. subst r s'. simpl. exact Hc.
  - simpl. intros H. injection H as Hr Hs. subst r s'. reflexivity.
  - simpl. intros H. injection H as Hr Hs. subst r s'. reflexivity.
Qed.

Lemma granted_cons (r : Result) (rs : list Result) :
  granted (r :: rs) = (if is_granted r then 1 else 0) + granted rs.
Proof.
  unfold granted. simpl. destruct (is_granted r); simpl length; lia.
Qed.

Lemma granted_nonneg (rs : list Result) : 0 <= granted rs.
Proof. unfold granted. lia. Qed.

Lemma run_count (cs : list (Call W)) :
  forall (s : Sys W Chan T) rs s',
    run select_recv cs s = Some (rs, s') ->
    0 <= count (att s) ->
    count (att s) + granted rs <= max_int ->
    count (att s') = count (att s) + granted rs.
Proof.
  induction cs as [|c cs IH]; intros s rs s' H H0 Hmax.
  - simpl in H. injection H as Hr Hs. subst rs s'. unfold granted. simpl. lia.
  - cbn [run] in H. unfold bind at 1 in H.
    destruct (call select_recv c s) as [[r s1]|] eqn:Ec; [|discriminate].
    unfold bind at 1 in H.
    destruct (run select_recv cs s1) as [[rs1 s2]|] eqn:Er; [|discriminate].
    simpl in H. injection H as Hr Hs. subst rs s'.
    rewrite granted_cons in *.
    pose proof (granted_nonneg rs1) as Hg.
    pose proof (call_count c s r s1 Ec) as Hc.
    destruct (is_granted r).
    + rewrite wrap_int_small in Hc by (pose proof min_int_neg; lia).
      rewrite (IH s1 rs1 s2 Er); lia.
    + rewrite (IH s1 rs1 s2 Er); lia.
Qed.

(** C4 (as amended).  On a started Attempt Count returns 0; after any
    sequence of calls in which fewer than 2^63 - 1 calls of Next returned
    true, Count returns the number of those calls; and one more call, of any
    kind, adds exactly 1 to it when it is a Next that returns true and leaves
    it unchanged otherwise. *)
Theorem Count_counts_granted
    (S : Type) (StrategyS : Strategy S T) (strategy : S)
    (clk : option (Clock W Chan)) (stp : option Chan) (w : W)
    (cs : list (Call W)) (rs : list Result) (s : Sys W Chan T)
    (c : Call W) (r : Result) (s' : Sys W Chan T) :
  run select_recv cs (Start WallClock strategy clk stp w) = Some (rs, s) ->
  granted rs < max_int ->
  call select_recv c s = Some (r, s') ->
  Count (Start WallClock strategy clk stp w)
  = Some (0, Start WallClock strategy clk stp w) /\
  Count s = Some (granted rs, s) /\
  Count s' = Some (granted rs + (if is_granted r then 1 else 0), s').
Proof.
  intros Hrun Hlt Hcall.
  assert (H0 : count (att (Start WallClock strategy clk stp w)) = 0).
  { unfold Start.
    destruct (Now match clk with Some c0 => c0 | None => WallClock end w).
    reflexivity. }
  pose proof (granted_nonneg rs) as Hg.
  assert (Hs : count (att s) = granted rs).
  { rewrite (run_count cs _ rs s Hrun); rewrite H0; lia. }
  assert (Hs' : count (att s') = granted rs + (if is_granted r then 1 else 0)).
  { rewrite (call_count c s r s' Hcall), Hs.
    destruct (is_granted r); [|lia].
    apply wrap_int_small. pose proof min_int_neg. lia. }
  unfold Count, bind, get_att, ret. rewrite H0, Hs, Hs'. auto.
Qed.

Lemma run_cons (c : Call W) (cs : list (Call W)) (s : Sys W Chan T) :
  run select_recv (c :: cs) s =
  match call select_recv c s with
  | Some (r, s1) =>
      match run select_recv cs s1 with
      | Some (rs, s2) => Some (r :: rs, s2)
      | None => None
      end
  | None => None
  end.
Proof.
  cbn [run]. unfold bind at 1.
  destruct (call select_recv c s) as [[r s1]|]; [|reflexivity].
  unfold bind at 1. destruct (run select_recv cs s1) as [[rs s2]|]; reflexivity.
Qed.

Lemma call_Env (f : W -> W) (s : Sys W Chan T) :
  call select_recv (CallEnv f) s
  = Some (REnv, {| att := att s; world := f (world s); trace := trace s |}).
Proof. reflexivity. Qed.

Lemma call_Next (s : Sys W Chan T) :
  call select_recv CallNext s =
  match HasNext select_recv s with
  | Some (_, s1) => Some (RNext (running (att s1)), after_Next s1)
  | None => None
  end.
Proof.
  cbn [call]. unfold bind. rewrite Next_unfold.
  destruct (HasNext select_recv s) as [[b s1]|]; reflexivity.
Qed.

Lemma call_HasNext (s : Sys W Chan T) :
  call select_recv CallHasNext s =
  match HasNext select_recv s with
  | Some (b, s1) => Some (RHasNext b, s1)
  | None => None
  end.
Proof.
  cbn [call]. unfold bind.
  destruct (HasNext select_recv s) as [[b s1]|]; reflexivity.
Qed.

(** C6 (as amended).  Under Go's select, if at the select of the second
    Next (when the Timer continues) the stop channel is ready and the timer
    channel is not, then the first Next returns true and the second false.
    The Attempt is then in the same observable state (count 1, no wait owed,
    not running) whether the Timer reported stop or the stop channel won. *)
Theorem stop_preempts_pending_sleep
    (ready : Chan -> W -> bool)
    (S : Type) (StrategyS : Strategy S T) (strategy : S)
    (clk : option (Clock W Chan)) (sc : Chan) (w : W) (f g : W -> W) :
  let s0 := Start WallClock strategy clk (Some sc) w in
  GoSelect select_recv ready ->
  (forall now w1 d tm c w2,
      Now (clock (att s0)) (g (f (world s0))) = (now, w1) ->
      NextSleep (timer (att s0)) now = ((d, true), tm) ->
      After (clock (att s0)) d w1 = (c, w2) ->
      ready sc w2 = true /\ ready c w2 = false) ->
  exists s2,
    run select_recv [CallEnv f; CallNext; CallEnv g; CallNext] s0
    = Some ([REnv; RNext true; REnv; RNext false], s2) /\
    observable (att s2) = (1, false, false).
Proof.
  intros s0 GS H. subst s0. revert H. unfold Start.
  destruct (Now match clk with Some c => c | None => WallClock end w) as [t0 w0].
  cbn [att world clock timer]. intros H.
  set (ck := match clk with Some c => c | None => WallClock end) in *.
  rewrite run_cons, call_Env, run_cons, call_Next.
  rewrite HasNext_idle by reflexivity.
  cbn [att world trace running after_Next count waited clock stop timer].
  rewrite run_cons, call_Env, run_cons, call_Next.
  rewrite HasNext_owed by reflexivity.
  cbn [att world trace running after_Next count waited clock stop timer].
  destruct (Now ck (g (f w0))) as [now w1] eqn:EN.
  destruct (NextSleep (NewTimer strategy t0) now) as [[d ok] tm] eqn:ES.
  destruct ok.
  - destruct (After ck d w1) as [c w2] eqn:EA.
    destruct (H now w1 d tm c w2 eq_refl ES EA) as [Hs Hc].
    destruct (GS c (Some sc) w2) as [_ G]. simpl in G. rewrite Hs, Hc in G.
    destruct G as [w3 G]. rewrite G. simpl.
    eexists. split; reflexivity.
  - simpl. eexists. split; reflexivity.
Qed.

End RetryFacts.

(** ** The simulated world obeys Go's select *)

Lemma Sim_GoSelect : GoSelect Sim.select_recv Sim.ready.
Proof.
  intros c s w. unfold Sim.select_recv. split.
  - intros Hs k w' H. subst s. simpl in H.
    destruct (Sim.ready c w).
    + injection H as Hk _. auto.
    + destruct (Sim.ready_time c w); [|discriminate].
      injection H as Hk _. auto.
  - destruct (Sim.ready c w), (ready_opt Sim.ready s w); eauto.
    destruct (Sim.pick w). discriminate.
Qed.

(** ** The claims at concrete Attempts *)

Lemma HasNext_repeated_witness :
  HasNext Sim.select_recv s_owed = Some (true, s_waited) /\
  exists rs s2,
    run Sim.select_recv
      [CallHasNext; CallCount; CallEnv (Sim.set_wall 50); CallHasNext] s_waited
    = Some (rs, s2) /\
    (forall b', In (RHasNext b') rs -> b' = true) /\
    exists evs, trace s2 = trace s_owed ++ evs /\
                (waits evs <= 1)%nat /\ (queries evs <= 1)%nat.
Proof.
  assert (H : HasNext Sim.select_recv s_owed = Some (true, s_waited))
    by reflexivity.
  split; [exact H|].
  apply (HasNext_repeated Sim.world Sim.chan Sim.select_recv s_owed true s_waited);
    [exact H | reflexivity].
Defined.

Lemma Next_false_is_final_witness :
  Next Sim.select_recv s_last = Some (false, s_final) /\
  running (att s_final) = false /\
  exists rs s2,
    run Sim.select_recv
      [CallNext; CallEnv (Sim.set_wall 50); CallHasNext; CallCount; CallNext] s_final
    = Some (rs, s2) /\
    (forall b, returned rs b -> b = false) /\
    running (att s2) = false.
Proof.
  assert (H : Next Sim.select_recv s_last = Some (false, s_final))
    by reflexivity.
  split; [exact H|].
  apply (Next_false_is_final Sim.world Sim.chan Sim.select_recv s_last s_final _ H).
Defined.

Lemma HasNext_predicts_Next_witness :
  HasNext Sim.select_recv s_owed = Some (true, s_waited) /\
  count (att s_waited) = count (att s_owed) /\
  exists s2, run Sim.select_recv [CallEnv (Sim.set_wall 50); CallNext] s_waited
             = Some ([REnv; RNext true], s2).
Proof.
  assert (H : HasNext Sim.select_recv s_owed = Some (true, s_waited))
    by reflexivity.
  split; [exact H|].
  apply (HasNext_predicts_Next Sim.world Sim.chan Sim.select_recv
           s_owed true s_waited (Sim.set_wall 50) H).
Defined.

Lemma HasNext_timer_stop_witness :
  HasNext Sim.select_recv s_last =
  Some (false,
        {| att := {| clock := Sim.wallClock; stop := Some Sim.StopChan;
                     timer := []; count := 2;
                     waited := true; running := false |};
           world := w_idle;
           trace := [EvNow; EvNextSleep 0] |}).
Proof.
  apply (HasNext_timer_stop Sim.world Sim.chan Sim.select_recv s_last 0 w_idle 3 []);
    reflexivity.
Defined.

Lemma Count_counts_granted_witness :
  run Sim.select_recv [CallNext] s_started = Some ([RNext true], s_first) /\
  granted [RNext true] < max_int /\
  call Sim.select_recv CallNext s_first = Some (RNext true, s_second) /\
  Count s_started = Some (0, s_started) /\
  Count s_first = Some (1, s_first) /\
  Count s_second = Some (2, s_second).
Proof.
  assert (H1 : run Sim.select_recv [CallNext] s_started = Some ([RNext true], s_first))
    by reflexivity.
  assert (H2 : granted [RNext true] < max_int) by reflexivity.
  assert (H3 : call Sim.select_recv CallNext s_first = Some (RNext true, s_second))
    by reflexivity.
  split; [exact H1|]. split; [exact H2|]. split; [exact H3|].
  exact (Count_counts_granted Sim.world Sim.chan Sim.wallClock Sim.select_recv
           _ _ [(7, true); (3, false)] None None w_idle
           [CallNext] [RNext true] s_first CallNext (RNext true) s_second
           H1 H2 H3).
Defined.

Lemma stop_preempts_pending_sleep_witness :
  GoSelect Sim.select_recv Sim.ready /\
  exists s2,
    run Sim.select_recv
      [CallEnv (fun w => w); CallNext; CallEnv (fun w => w); CallNext]
      (Start Sim.wallClock [(5000000000, true)] None (Some Sim.StopChan) w_stopped)
    = Some ([REnv; RNext true; REnv; RNext false], s2) /\
    observable (att s2) = (1, false, false).
Proof.
  split; [exact Sim_GoSelect|].
  apply (stop_preempts_pending_sleep Sim.world Sim.chan Sim.wallClock
           Sim.select_recv Sim.ready _ _ [(5000000000, true)] None
           Sim.StopChan w_stopped (fun w => w) (fun w => w) Sim_GoSelect).
  simpl. intros now w1 d tm c w2 HN HS HA.
  injection HN as <- <-. injection HS as <- <-. injection HA as <- <-.
  split; reflexivity.
Defined.

(** ** Where the claims fail *)

Lemma steady_Next (n : Z) (tr : list Event) :
  Next Sim.select_recv (s_steady n tr)
  = Some (true,
          s_steady (wrap_int (n + 1))
            (tr ++ [EvNow; EvNextSleep 0; EvAfter 0; EvSelect])).
Proof.
  rewrite Next_unfold, HasNext_owed by reflexivity. reflexivity.
Qed.

Lemma steady_call_Next (n : Z) (tr : list Event) :
  call Sim.select_recv CallNext (s_steady n tr)
  = Some (RNext true,
          s_steady (wrap_int (n + 1))
            (tr ++ [EvNow; EvNextSleep 0; EvAfter 0; EvSelect])).
Proof.
  rewrite call_Next, HasNext_owed by reflexivity. reflexivity.
Qed.

Lemma steady_reachable (k : Z) :
  0 <= k -> k < max_int ->
  exists tr,
    reachable Sim.select_recv
      (Start Sim.wallClock {| steady_sleep := 0 |} (Some Sim.mockClock) None w_idle)
      (s_steady (k + 1) tr).
Proof.
  intros Hk. pattern k. apply natlike_ind; [| |exact Hk]; clear k Hk.
  - intros _. exists [EvNow].
    eapply reach_call with (c := CallNext); [apply reach_start|]. reflexivity.
  - intros k Hk IH Hlt.
    destruct IH as [tr IH]; [lia|].
    eexists.
    eapply reach_call with (c := CallNext); [exact IH|].
    rewrite steady_call_Next.
    rewrite wrap_int_small by (pose proof min_int_neg; lia).
    replace (Z.succ k + 1) with (k + 1 + 1) by lia.
    reflexivity.
Qed.

(** Where C4 fails as stated: an Attempt that has been granted 2^63 - 1
    attempts can be reached from Start; its next Next returns true and Count
    goes from the largest [int] to the smallest. *)
Lemma Count_wraps_around :
  exists tr s',
    reachable Sim.select_recv
      (Start Sim.wallClock {| steady_sleep := 0 |} (Some Sim.mockClock) None w_idle)
      (s_steady max_int tr) /\
    Count (s_steady max_int tr) = Some (max_int, s_steady max_int tr) /\
    Next Sim.select_recv (s_steady max_int tr) = Some (true, s') /\
    Count s' = Some (min_int, s') /\
    min_int < max_int.
Proof.
  destruct (steady_reachable (max_int - 1)) as [tr H].
  - pose proof max_int_pos. lia.
  - lia.
  - replace (max_int - 1 + 1) with max_int in H by lia.
    exists tr. eexists. split; [exact H|]. split; [reflexivity|].
    rewrite steady_Next. split; [reflexivity|]. split; reflexivity.
Qed.

(** Where C6 fails as stated: the stop channel is closed before Start, yet
    the second Next may return true, because the timer channel is ready too
    and select is free to take it: on the mock clock of the tests (whose After
    channel is closed at once) with a sleep of 5s, and on the wall clock with
    a sleep of 0. *)
Lemma closed_stop_may_grant_again :
  Sim.ready Sim.StopChan w_stopped = true /\
  (exists s2,
     run Sim.select_recv [CallNext; CallNext]
       (Start Sim.wallClock [(5000000000, true)]
          (Some Sim.mockClock) (Some Sim.StopChan) w_stopped)
     = Some ([RNext true; RNext true], s2) /\
     Sim.ready Sim.StopChan (world s2) = true) /\
  (exists s2,
     run Sim.select_recv [CallNext; CallNext]
       (Start Sim.wallClock [(0, true)] None (Some Sim.StopChan) w_stopped)
     = Some ([RNext true; RNext true], s2) /\
     Sim.ready Sim.StopChan (world s2) = true).
Proof.
  split; [reflexivity|].
  split; eexists; (split; [vm_compute; reflexivity | vm_compute; reflexivity]).
Qed.

Lemma wrap_int_range (z : Z) : min_int <= wrap_int z <= max_int.
Proof.
  unfold wrap_int, min_int, max_int.
  pose proof (Z.mod_pos_bound (z + 2 ^ 63) (2 ^ 64) eq_refl) as H.
  change (2 ^ 64) with (2 * 2 ^ 63) in *. lia.
Qed.

(** ** The Attempt on the mock clock of the tests *)

Section MockClock.

Context {T : Type} {TimerT : Timer T}.

(** Next on the mock clock with no stop channel. *)
Lemma mock_Next (tm : T) (n : Z) (wt : bool) (w : Sim.world) (tr : list Event) :
  Next Sim.select_recv (mock_sys tm n wt true w tr)
  = if wt then Some (true, mock_sys tm (wrap_int (n + 1)) false true w tr)
    else
      let (r, tm') := NextSleep tm (Sim.mock_now w) in
      let (d, ok) := r in
      if ok then
        Some (true,
              mock_sys tm' (wrap_int (n + 1)) false true
                (Sim.set_mock_now (Sim.mock_now w + d) w)
                (tr ++ [EvNow; EvNextSleep (Sim.mock_now w); EvAfter d; EvSelect]))
      else
        Some (false,
              mock_sys tm' n false false w
                (tr ++ [EvNow; EvNextSleep (Sim.mock_now w)])).
Proof.
  unfold mock_sys. rewrite Next_unfold. destruct wt.
  - rewrite HasNext_idle by reflexivity. reflexivity.
  - rewrite HasNext_owed by reflexivity.
    cbn [att world trace clock stop timer count Now After Sim.mockClock].
    destruct (NextSleep tm (Sim.mock_now w)) as [[d ok] tm'].
    destruct ok; reflexivity.
Qed.

(** One round of the test loop. *)
Lemma observe_mock (t0 : Time) (ti : Duration) (ts : list Duration)
    (tm : T) (n : Z) (wt : bool) (w : Sim.world) (tr : list Event) :
  observe t0 (ti :: ts) (mock_sys tm n wt true w tr)
  = if wt then
      option_map (cons (true, 0, wrap_int (n + 1)))
        (observe t0 ts
           (mock_sys tm (wrap_int (n + 1)) false true
              (Sim.set_mock_now (t0 + ti) w) tr))
    else
      let (r, tm') := NextSleep tm (t0 + ti) in
      let (d, ok) := r in
      if ok then
        option_map (cons (true, d, wrap_int (n + 1)))
          (observe t0 ts
             (mock_sys tm' (wrap_int (n + 1)) false true
                (Sim.set_mock_now (t0 + ti + d) (Sim.set_mock_now (t0 + ti) w))
                (tr ++ [EvNow; EvNextSleep (t0 + ti); EvAfter d; EvSelect])))
      else
        option_map (cons (false, 0, n))
          (observe t0 ts
             (mock_sys tm' n false false (Sim.set_mock_now (t0 + ti) w)
                (tr ++ [EvNow; EvNextSleep (t0 + ti)]))).
Proof.
  change (observe t0 (ti :: ts) (mock_sys tm n wt true w tr))
    with (match Next Sim.select_recv
                  (mock_sys tm n wt true (Sim.set_mock_now (t0 + ti) w) tr) with
          | None => None
          | Some (ok, s2) =>
              match observe t0 ts s2 with
              | None => None
              | Some obs =>
                  Some ((ok, Sim.mock_now (world s2) - t0 - ti, count (att s2))
                          :: obs)
              end
          end).
  rewrite mock_Next. cbn [Sim.mock_now Sim.set_mock_now].
  destruct wt.
  - cbn [mock_sys world att count Sim.mock_now Sim.set_mock_now].
    replace (t0 + ti - t0 - ti) with 0 by lia.
    destruct (observe t0 ts _); reflexivity.
  - destruct (NextSleep tm (t0 + ti)) as [[d ok] tm'].
    destruct ok; cbn [mock_sys world att count Sim.mock_now Sim.set_mock_now].
    + replace (t0 + ti + d - t0 - ti) with d by lia.
      destruct (observe t0 ts _); reflexivity.
    + replace (t0 + ti - t0 - ti) with 0 by lia.
      destruct (observe t0 ts _); reflexivity.
Qed.

End MockClock.

(** ** The concrete strategies, as the specification and the tests describe them *)

(** *** Regular *)

(** A query made [e] after the start of a timer whose latest attempt was made
    [a] after it: the answer does not depend on the start itself. *)
Lemma Regular_NextSleep_at (r : Regular) (t0 a : Time) (k : Z) (e : Duration) :
  Regular_NextSleep
    {| r_strategy := r; r_start := t0; r_last := t0 + a; r_attempts := k |} (t0 + e)
  = let x := Regular_NextSleep
               {| r_strategy := r; r_start := 0; r_last := a; r_attempts := k |} e in
    (fst x, {| r_strategy := r; r_start := t0; r_last := t0 + r_last (snd x);
               r_attempts := r_attempts (snd x) |}).
Proof.
  unfold Regular_NextSleep. cbn [r_strategy r_start r_last r_attempts]. cbv zeta.
  destruct (k <? Min r).
  - cbn [fst snd r_last r_attempts]. rewrite Z.add_assoc. reflexivity.
  - assert (E : (t0 + a + Delay r <=? t0 + e) = (a + Delay r <=? e)).
    { destruct (Z.leb_spec (t0 + a + Delay r) (t0 + e)),
               (Z.leb_spec (a + Delay r) e); auto; lia. }
    rewrite E.
    replace (t0 + a + Delay r - (t0 + e)) with (a + Delay r - e) by lia.
    set (sl := if a + Delay r <=? e then 0 else a + Delay r - e).
    assert (E2 : (t0 + e + sl <? t0 + Total r) = (e + sl <? 0 + Total r)).
    { destruct (Z.ltb_spec (t0 + e + sl) (t0 + Total r)),
               (Z.ltb_spec (e + sl) (0 + Total r)); auto; lia. }
    rewrite E2.
    destruct (e + sl <? 0 + Total r); cbn [fst snd r_last r_attempts].
    + rewrite Z.add_assoc. reflexivity.
    + reflexivity.
Qed.

Lemma Regular_NextSleep_at_start (r : Regular) (t0 : Time) (k : Z) (e : Duration) :
  Regular_NextSleep
    {| r_strategy := r; r_start := t0; r_last := t0; r_attempts := k |} (t0 + e)
  = let x := Regular_NextSleep
               {| r_strategy := r; r_start := 0; r_last := 0; r_attempts := k |} e in
    (fst x, {| r_strategy := r; r_start := t0; r_last := t0 + r_last (snd x);
               r_attempts := r_attempts (snd x) |}).
Proof.
  pose proof (Regular_NextSleep_at r t0 0 k e) as H.
  rewrite Z.add_0_r in H. exact H.
Qed.

(** Evaluates a timer query whose arguments are closed terms. *)
Ltac eval_query :=
  match goal with
  | |- context [Regular_NextSleep ?tm ?e] =>
      let v := eval vm_compute in (Regular_NextSleep tm e) in
      let H := fresh "Hq" in
      assert (H : Regular_NextSleep tm e = v) by (vm_compute; reflexivity);
      rewrite H; clear H
  | |- context [Exponential_NextSleep ?tm ?e] =>
      let v := eval vm_compute in (Exponential_NextSleep tm e) in
      let H := fresh "Hq" in
      assert (H : Exponential_NextSleep tm e = v) by (vm_compute; reflexivity);
      rewrite H; clear H
  end.

(** One call of Next in the loop of [testStrategy] that asks a Regular
    timer. *)
Ltac regular_round :=
  rewrite observe_mock; cbv iota; cbn [NextSleep Regular_Timer];
  first [rewrite Regular_NextSleep_at_start | rewrite Regular_NextSleep_at];
  eval_query; cbv zeta iota; cbn [fst snd r_last r_attempts].

Ltac regular_table r w :=
  unfold observeStrategy, Start;
  cbn [Now Sim.mockClock Sim.mock_now Sim.set_mock_now NewTimer Regular_Strategy
       Regular_NewTimer map t];
  match goal with
  | |- context [observe ?t0 _ ?s] =>
      change s with
        (mock_sys {| r_strategy := r; r_start := t0; r_last := t0;
                     r_attempts := 1 |}
           0 true true (Sim.set_mock_now t0 w) [EvNow])
  end;
  rewrite observe_mock; cbv iota.

(** What [testStrategy] observes on the three Regular entries of its table,
    whatever instant the test is started at: the result of Next, the time
    slept and Count at each call. *)
Lemma Regular_timing_example (w : Sim.world) :
  observeStrategy regular_timing (map t regular_timing_calls) w
  = Some [(true, 0, 1); (true, 100000000, 2); (true, 100000000, 3); (false, 0, 3)].
Proof.
  unfold regular_timing_calls.
  regular_table regular_timing w.
  do 3 regular_round.
  reflexivity.
Qed.

Lemma Regular_times_example (w : Sim.world) :
  observeStrategy regular_times (map t regular_times_calls) w
  = Some [(true, 0, 1); (true, 500000000, 2); (true, 900000000, 3); (false, 0, 3)].
Proof.
  unfold regular_times_calls.
  regular_table regular_times w.
  do 3 regular_round.
  reflexivity.
Qed.

Lemma Regular_late_example (w : Sim.world) :
  observeStrategy regular_late (map t regular_late_calls) w
  = Some [(true, 0, 1); (true, 0, 2); (true, 900000000, 3); (false, 0, 3)].
Proof.
  unfold regular_late_calls.
  regular_table regular_late w.
  do 3 regular_round.
  reflexivity.
Qed.

(** The modelled Regular timer passes the three Regular entries of
    [strategyTests]. *)
Lemma Regular_tests_pass (w : Sim.world) :
  testStrategy regular_timing regular_timing_calls true w = Some true /\
  testStrategy regular_times regular_times_calls true w = Some true /\
  testStrategy regular_late regular_late_calls true w = Some true.
Proof.
  unfold testStrategy.
  rewrite Regular_timing_example, Regular_times_example, Regular_late_example.
  repeat split; vm_compute; reflexivity.
Qed.

Lemma Regular_under_floor (tm : regularTimer) (now : Time) :
  r_attempts tm < Min (r_strategy tm) ->
  Regular_NextSleep tm now
  = ((Delay (r_strategy tm), true),
     {| r_strategy := r_strategy tm; r_start := r_start tm;
        r_last := now + Delay (r_strategy tm);
        r_attempts := r_attempts tm + 1 |}).
Proof.
  intros H. unfold Regular_NextSleep.
  rewrite (proj2 (Z.ltb_lt _ _) H). reflexivity.
Qed.

(** As long as the floor is not reached, every query is answered (delay,
    continue), whenever it is made and whatever the budget. *)
Lemma Regular_floor_queries (nows : list Time) :
  forall tm : regularTimer,
    r_attempts tm + Z.of_nat (length nows) <= Min (r_strategy tm) ->
    ask tm nows = map (fun _ => (Delay (r_strategy tm), true)) nows.
Proof.
  induction nows as [|now nows IH]; intros tm H; [reflexivity|].
  cbn [ask NextSleep Regular_Timer map].
  cbn [length] in H. rewrite Nat2Z.inj_succ in H.
  rewrite Regular_under_floor by lia.
  f_equal.
  rewrite IH; cbn [r_strategy r_attempts]; [reflexivity | lia].
Qed.

(** The sleep of a Regular timer whose floor is met. *)
Lemma Regular_sleep (tm : regularTimer) (now : Time) :
  Min (r_strategy tm) <= r_attempts tm ->
  let sl := Z.max 0 (r_last tm + Delay (r_strategy tm) - now) in
  Regular_NextSleep tm now
  = if now + sl <? r_start tm + Total (r_strategy tm) then
      ((sl, true),
       {| r_strategy := r_strategy tm; r_start := r_start tm;
          r_last := now + sl; r_attempts := r_attempts tm + 1 |})
    else ((0, false), tm).
Proof.
  intros Hmin sl. unfold Regular_NextSleep.
  rewrite (proj2 (Z.ltb_ge _ _) Hmin). cbv zeta.
  assert (E : (if r_last tm + Delay (r_strategy tm) <=? now then 0
               else r_last tm + Delay (r_strategy tm) - now) = sl).
  { unfold sl. destruct (Z.leb_spec (r_last tm + Delay (r_strategy tm)) now); lia. }
  rewrite E. reflexivity.
Qed.

(** Once the budget is used up and the floor met, the timer stops. *)
Lemma Regular_exhausted (tm : regularTimer) (now : Time) :
  Min (r_strategy tm) <= r_attempts tm ->
  r_start tm + Total (r_strategy tm) <= now ->
  Regular_NextSleep tm now = ((0, false), tm).
Proof.
  intros Hmin Hb. rewrite Regular_sleep by exact Hmin. cbv zeta.
  rewrite (proj2 (Z.ltb_ge _ _)) by lia. reflexivity.
Qed.

(** Steps of a run on the wall clock. *)
Ltac step_idle c :=
  rewrite run_cons, c, HasNext_idle by reflexivity;
  unfold after_Next;
  cbn [att world trace running count waited clock stop timer].

Ltac step_owed c :=
  rewrite run_cons, c, HasNext_owed by reflexivity;
  cbn [att world trace running count waited clock stop timer
       Now After Sim.wallClock Sim.wall Sim.set_wall NextSleep Regular_Timer].

Ltac step_env :=
  rewrite run_cons, call_Env; cbn [att world trace Sim.wall Sim.set_wall].

(** An After channel whose deadline has come is received from at once. *)
Lemma select_due (d now : Time) (w : Sim.world) :
  d <= now ->
  Sim.select_recv (Sim.TimerChan d) None (Sim.set_wall now w)
  = Some (CaseAfter, Sim.set_wall now w).
Proof.
  intros H. unfold Sim.select_recv.
  cbn [Sim.ready ready_opt Sim.wall Sim.set_wall].
  rewrite (proj2 (Z.leb_le d now) H). reflexivity.
Qed.

(** [retry.Regular{}] of TestAttemptNextHasNext: one attempt, whenever the
    timer is asked. *)
Lemma regular_zero_example (w : Sim.world) (e : Duration) :
  0 <= e ->
  (exists s',
     run Sim.select_recv
       [CallEnv (Sim.set_wall (Sim.wall w + e)); CallNext; CallNext]
       (Start Sim.wallClock regular_zero None None w)
     = Some ([REnv; RNext true; RNext false], s')) /\
  (exists s',
     run Sim.select_recv
       [CallEnv (Sim.set_wall (Sim.wall w + e)); CallNext; CallHasNext; CallNext]
       (Start Sim.wallClock regular_zero None None w)
     = Some ([REnv; RNext true; RHasNext false; RNext false], s')).
Proof.
  intros He. unfold Start.
  cbn [Now Sim.wallClock NewTimer Regular_Strategy]. unfold Regular_NewTimer.
  set (t0 := Sim.wall w).
  split.
  - step_env. step_idle call_Next. step_owed call_Next.
    rewrite Regular_exhausted
      by (cbn [r_strategy r_start r_attempts regular_zero Min Total]; lia).
    cbv iota. unfold after_Next; cbn [att world trace running count waited].
    cbn [run ret]. eexists. reflexivity.
  - step_env. step_idle call_Next. step_owed call_HasNext.
    rewrite Regular_exhausted
      by (cbn [r_strategy r_start r_attempts regular_zero Min Total]; lia).
    cbv iota. step_idle call_Next.
    cbn [run ret]. eexists. reflexivity.
Qed.

Lemma regular_total_in_budget (t0 l : Time) (k : Z) (e : Duration) :
  l <= t0 + e -> e < 200000000 ->
  Regular_NextSleep
    {| r_strategy := regular_total; r_start := t0; r_last := l; r_attempts := k |}
    (t0 + e)
  = ((0, true),
     {| r_strategy := regular_total; r_start := t0; r_last := t0 + e + 0;
        r_attempts := k + 1 |}).
Proof.
  intros Hl He. unfold Regular_NextSleep.
  cbn [r_strategy r_start r_last r_attempts regular_total Min Delay Total].
  cbv zeta.
  destruct (Z.ltb_spec k 0) as [Hk|Hk]; [reflexivity|].
  rewrite (proj2 (Z.leb_le (l + 0) (t0 + e))) by lia.
  rewrite (proj2 (Z.ltb_lt (t0 + e + 0) (t0 + 200000000))) by lia.
  reflexivity.
Qed.

(** [retry.Regular{Total: 2e8}] of TestAttemptNextHasNext: a second attempt
    is promised within the budget and made after it; there is no third. *)
Lemma regular_total_example (w : Sim.world) (e1 e : Duration) :
  0 <= e1 < 200000000 ->
  200000000 <= e ->
  exists s',
    run Sim.select_recv
      [CallEnv (Sim.set_wall (Sim.wall w + e1)); CallNext; CallHasNext;
       CallEnv (Sim.set_wall (Sim.wall w + e)); CallHasNext; CallNext; CallNext]
      (Start Sim.wallClock regular_total None None w)
    = Some ([REnv; RNext true; RHasNext true; REnv; RHasNext true; RNext true;
             RNext false], s').
Proof.
  intros He1 He. unfold Start.
  cbn [Now Sim.wallClock NewTimer Regular_Strategy]. unfold Regular_NewTimer.
  set (t0 := Sim.wall w).
  step_env. step_idle call_Next. step_owed call_HasNext.
  rewrite regular_total_in_budget by lia.
  rewrite select_due by lia. cbv iota. cbn [is_After att world trace].
  step_env. step_idle call_HasNext. step_idle call_Next. step_owed call_Next.
  rewrite Regular_exhausted
    by (cbn [r_strategy r_start r_attempts regular_total Min Total]; lia).
  cbv iota. unfold after_Next; cbn [att world trace running count waited].
  cbn [run ret]. eexists. reflexivity.
Qed.

(** [retry.Regular{Total: 1e8, Min: 2}] of TestAttemptNextHasNext, first
    asked when the budget is used up. *)
Lemma regular_min2_example (w : Sim.world) (e : Duration) :
  100000000 <= e ->
  exists s',
    run Sim.select_recv
      [CallEnv (Sim.set_wall (Sim.wall w + e));
       CallNext; CallHasNext; CallNext; CallHasNext; CallNext]
      (Start Sim.wallClock regular_min2 None None w)
    = Some ([REnv; RNext true; RHasNext true; RNext true;
             RHasNext false; RNext false], s').
Proof.
  intros He. unfold Start.
  cbn [Now Sim.wallClock NewTimer Regular_Strategy]. unfold Regular_NewTimer.
  set (t0 := Sim.wall w).
  step_env. step_idle call_Next. step_owed call_HasNext.
  rewrite Regular_under_floor by (cbn; lia).
  cbn [r_strategy r_start r_last r_attempts regular_min2 Delay].
  rewrite select_due by lia. cbv iota. cbn [is_After att world trace].
  step_idle call_Next. step_owed call_HasNext.
  rewrite Regular_exhausted
    by (cbn [r_strategy r_start r_attempts regular_min2 Min Total]; lia).
  cbv iota. cbn [att world trace].
  step_idle call_Next.
  cbn [run ret]. eexists. reflexivity.
Qed.




(** The queries leave the strategy and the start of a Regular timer alone,
    and the attempts only grow. *)
Lemma Regular_kept (nows : list Time) :
  forall tm : regularTimer,
    r_strategy (after_queries tm nows) = r_strategy tm /\
    r_start (after_queries tm nows) = r_start tm /\
    r_attempts tm <= r_attempts (after_queries tm nows).
Proof.
  induction nows as [|now nows IH]; intros tm;
    [repeat split; try reflexivity; lia|].
  cbn [after_queries NextSleep Regular_Timer].
  destruct (IH (snd (Regular_NextSleep tm now))) as (Hs & Ht & Ha).
  rewrite Hs, Ht.
  assert (H : r_strategy (snd (Regular_NextSleep tm now)) = r_strategy tm /\
              r_start (snd (Regular_NextSleep tm now)) = r_start tm /\
              r_attempts tm <= r_attempts (snd (Regular_NextSleep tm now))).
  { unfold Regular_NextSleep. cbv zeta.
    repeat match goal with |- context [if ?c then _ else _] => destruct c end;
      cbn [snd r_strategy r_start r_attempts]; repeat split;
      try reflexivity; lia. }
  destruct H as (H1 & H2 & H3). repeat split; [assumption | assumption | lia].
Qed.

(** Asked at 2s, for the slot at 0.2s or any other, Regular(total=0.25s,
    delay=0.1s) sleeps 0: the time lost is not compensated by a negative
    sleep.  The budget being used up, it also stops. *)
Lemma Regular_timing_late (t0 : Time) (nows : list Time) :
  fst (NextSleep (after_queries (NewTimer regular_timing t0) nows)
         (t0 + 2000000000))
  = (0, false).
Proof.
  destruct (Regular_kept nows (NewTimer regular_timing t0)) as (Hs & Ht & Ha).
  cbn [NewTimer Regular_Strategy Regular_NewTimer r_strategy r_start r_attempts]
    in Hs, Ht, Ha.
  cbn [NextSleep Regular_Timer NewTimer Regular_Strategy].
  rewrite Regular_exhausted; [reflexivity | |]; rewrite Hs.
  - cbn [regular_timing Min]. lia.
  - rewrite Ht. cbn [regular_timing Total]. lia.
Qed.

(** C8 (regularTimer.NextSleep is modelled from the spec).  While the
    attempts so far are fewer than min, a Regular timer reports continue with
    sleep = delay, whatever the total budget and the instants of the queries:
    a new timer, which stands for one attempt, answers so to every query of
    a sequence shorter than min.  Regular(total=1e8ns, min=2), first asked
    when 1e8ns or more have elapsed since its start, still grants a second
    attempt and then stops: Next, HasNext, Next, HasNext, Next return true,
    true, true, false, false. *)
Theorem Regular_min_floor
    (r : Regular) (t0 : Time) (nows : list Time) (w : Sim.world) (e : Duration) :
  Z.of_nat (length nows) < Min r ->
  100000000 <= e ->
  ask (NewTimer r t0) nows = map (fun _ => (Delay r, true)) nows /\
  exists s',
    run Sim.select_recv
      [CallEnv (Sim.set_wall (Sim.wall w + e));
       CallNext; CallHasNext; CallNext; CallHasNext; CallNext]
      (Start Sim.wallClock regular_min2 None None w)
    = Some ([REnv; RNext true; RHasNext true; RNext true;
             RHasNext false; RNext false], s').
Proof.
  intros Hmin He. split.
  - cbn [NewTimer Regular_Strategy]. unfold Regular_NewTimer.
    rewrite Regular_floor_queries; cbn [r_strategy r_attempts]; [reflexivity | lia].
  - apply regular_min2_example. exact He.
Qed.

Lemma Regular_min_floor_witness :
  Z.of_nat (length [100000000]) < Min regular_min2 /\
  100000000 <= 100000000 /\
  ask (NewTimer regular_min2 0) [100000000]
  = map (fun _ => (Delay regular_min2, true)) [100000000] /\
  exists s',
    run Sim.select_recv
      [CallEnv (Sim.set_wall (Sim.wall w_idle + 100000000));
       CallNext; CallHasNext; CallNext; CallHasNext; CallNext]
      (Start Sim.wallClock regular_min2 None None w_idle)
    = Some ([REnv; RNext true; RHasNext true; RNext true;
             RHasNext false; RNext false], s').
Proof.
  assert (H1 : Z.of_nat (length [100000000]) < Min regular_min2) by (simpl; lia).
  assert (H2 : 100000000 <= 100000000) by lia.
  split; [exact H1|]. split; [exact H2|].
  exact (Regular_min_floor regular_min2 0 [100000000] w_idle 100000000 H1 H2).
Defined.

(** *** Exponential *)

(** A scaled duration is an [int64]. *)
Lemma scale_range (f : float64) (d : Duration) : min_int <= scale f d <= max_int.
Proof.
  unfold scale, int64_of_float64.
  pose proof max_int_pos. pose proof min_int_neg.
  destruct (float64_trunc _) as [v|]; [|lia].
  destruct (Z.leb_spec min_int v); cbn [andb]; [|lia].
  destruct (Z.leb_spec v max_int); lia.
Qed.


(** The delays of [Exponential{Initial: 1e9, Factor: 2}] are 1e9 × 2^k as
    long as that is an [int64]; the next product is not one. *)
Lemma exponential_double_delays :
  map (nth_sleep (Factor exponential_double) (Initial exponential_double)) (seq 0 34)
  = map (fun k => 1000000000 * 2 ^ Z.of_nat k) (seq 0 34) /\
  max_int < 1000000000 * 2 ^ 34 /\
  nth_sleep (Factor exponential_double) (Initial exponential_double) 34 = min_int.
Proof.
  split; [vm_compute; reflexivity|]. split; vm_compute; reflexivity.
Qed.

(** The answer of an Exponential timer: what is left of the delay, counted
    from the latest attempt. *)
Lemma Exponential_sleep (tm : exponentialTimer) (now : Time) :
  Exponential_NextSleep tm now
  = ((Z.max 0 (e_last tm + e_delay tm - now), true),
     {| e_strategy := e_strategy tm;
        e_last := Z.max now (e_last tm + e_delay tm);
        e_delay := scale (Factor (e_strategy tm)) (e_delay tm) |}).
Proof.
  unfold Exponential_NextSleep. cbv zeta.
  destruct (Z.leb_spec (e_last tm + e_delay tm) now) as [H|H].
  - rewrite Z.max_l by lia. rewrite Z.add_0_r, Z.max_l by lia. reflexivity.
  - rewrite Z.max_r by lia. rewrite Z.max_r by lia.
    replace (now + (e_last tm + e_delay tm - now)) with (e_last tm + e_delay tm)
      by lia.
    reflexivity.
Qed.




Lemma Exponential_NextSleep_at (ex : Exponential) (t0 a : Time) (d e : Duration) :
  Exponential_NextSleep
    {| e_strategy := ex; e_last := t0 + a; e_delay := d |} (t0 + e)
  = let x := Exponential_NextSleep
               {| e_strategy := ex; e_last := a; e_delay := d |} e in
    (fst x, {| e_strategy := ex; e_last := t0 + e_last (snd x);
               e_delay := e_delay (snd x) |}).
Proof.
  rewrite !Exponential_sleep. cbn [e_strategy e_last e_delay fst snd]. cbv zeta.
  cbn [fst snd e_last e_delay].
  replace (t0 + a + d - (t0 + e)) with (a + d - e) by lia.
  replace (Z.max (t0 + e) (t0 + a + d)) with (t0 + Z.max e (a + d)) by lia.
  reflexivity.
Qed.

Lemma Exponential_NextSleep_at_start (ex : Exponential) (t0 : Time) (d e : Duration) :
  Exponential_NextSleep
    {| e_strategy := ex; e_last := t0; e_delay := d |} (t0 + e)
  = let x := Exponential_NextSleep
               {| e_strategy := ex; e_last := 0; e_delay := d |} e in
    (fst x, {| e_strategy := ex; e_last := t0 + e_last (snd x);
               e_delay := e_delay (snd x) |}).
Proof.
  pose proof (Exponential_NextSleep_at ex t0 0 d e) as H.
  rewrite Z.add_0_r in H. exact H.
Qed.

(** What [testStrategy] observes on the entry "exponential retry" of its
    table, whatever instant the test is started at. *)
Lemma Exponential_example (w : Sim.world) :
  observeStrategy exponential_double (map t exponential_double_calls) w
  = Some [(true, 0, 1); (true, 900000000, 2); (true, 2000000000, 3);
          (true, 4000000000, 4); (true, 8000000000, 5)].
Proof.
  unfold observeStrategy, Start, exponential_double_calls.
  cbn [Now Sim.mockClock Sim.mock_now Sim.set_mock_now NewTimer
       Exponential_Strategy map t].
  unfold Exponential_NewTimer.
  set (t0 := Sim.wall w).
  match goal with
  | |- context [observe _ _ ?s] =>
      change s with
        (mock_sys {| e_strategy := exponential_double; e_last := t0;
                     e_delay := Initial exponential_double |}
           0 true true (Sim.set_mock_now t0 w) [EvNow])
  end.
  rewrite observe_mock. cbv iota.
  do 4 (rewrite observe_mock; cbv iota; cbn [NextSleep Exponential_Timer];
        first [rewrite Exponential_NextSleep_at_start
              | rewrite Exponential_NextSleep_at];
        eval_query; cbv zeta iota; cbn [fst snd e_last e_delay]).
  reflexivity.
Qed.

(** The modelled Exponential timer passes the entry "exponential retry" of
    [strategyTests]. *)
Lemma Exponential_test_passes (w : Sim.world) :
  testStrategy exponential_double exponential_double_calls false w = Some true.
Proof.
  unfold testStrategy. rewrite Exponential_example.
  vm_compute. reflexivity.
Qed.




(** * Further properties of the code *)

Section MoreFacts.

Variable W : Type.
Variable Chan : Type.
Variable WallClock : Clock W Chan.
Variable select_recv : Chan -> option Chan -> W -> option (SelectCase * W).
Context {T : Type} {TimerT : Timer T}.

Lemma queries_app (tr evs : list Event) :
  queries (tr ++ evs) = (queries tr + queries evs)%nat.
Proof. unfold queries. rewrite filter_app, length_app. reflexivity. Qed.

Lemma waits_app (tr evs : list Event) :
  waits (tr ++ evs) = (waits tr + waits evs)%nat.
Proof. unfold waits. rewrite filter_app, length_app. reflexivity. Qed.

Lemma clock_reads_app (tr evs : list Event) :
  clock_reads (tr ++ evs) = (clock_reads tr + clock_reads evs)%nat.
Proof. unfold clock_reads. rewrite filter_app, length_app. reflexivity. Qed.

Lemma after_calls_app (tr evs : list Event) :
  after_calls (tr ++ evs) = (after_calls tr + after_calls evs)%nat.
Proof. unfold after_calls. rewrite filter_app, length_app. reflexivity. Qed.

(** What one call of HasNext adds to the trace, with what it leaves owed. *)
Lemma HasNext_effects (s : Sys W Chan T) (b : bool) (s' : Sys W Chan T) :
  HasNext select_recv s = Some (b, s') ->
  owed (att s') = 0 /\
  exists evs,
    trace s' = trace s ++ evs /\
    Z.of_nat (queries evs) = owed (att s) /\
    clock_reads evs = queries evs /\
    after_calls evs = waits evs /\
    (waits evs <= queries evs)%nat.
Proof.
  intros H. unfold owed.
  destruct (waited (att s) || negb (running (att s))) eqn:E.
  - rewrite (HasNext_idle _ _ _ s E) in H. injection H as _ <-.
    rewrite E. split; [reflexivity|].
    exists []. rewrite app_nil_r. repeat split; auto.
  - apply orb_false_elim in E. destruct E as [Ew Er].
    apply negb_false_iff in Er.
    rewrite (HasNext_owed _ _ _ s Ew Er) in H.
    destruct (Now (clock (att s)) (world s)) as [now w1].
    destruct (NextSleep (timer (att s)) now) as [[d ok] tm].
    destruct ok.
    + destruct (After (clock (att s)) d w1) as [c w2].
      destruct (select_recv c (stop (att s)) w2) as [[k w3]|]; [|discriminate].
      injection H as _ <-. cbn [att waited running trace]. split; [reflexivity|].
      eexists. split; [reflexivity|].
      repeat split; try reflexivity; unfold waits, queries; simpl; lia.
    + injection H as _ <-. cbn [att waited running trace]. split; [reflexivity|].
      eexists. split; [reflexivity|].
      repeat split; try reflexivity; unfold waits, queries; simpl; lia.
Qed.

(** What one call adds to the trace and to the attempts granted. *)
Lemma call_effects (c : Call W) (s : Sys W Chan T) (r : Result) (s' : Sys W Chan T) :
  call select_recv c s = Some (r, s') ->
  exists evs,
    trace s' = trace s ++ evs /\
    Z.of_nat (queries evs) + owed (att s')
    = owed (att s) + (if is_granted r then 1 else 0) /\
    clock_reads evs = queries evs /\
    after_calls evs = waits evs /\
    (waits evs <= queries evs)%nat.
Proof.
  destruct c.
  - rewrite call_Next.
    destruct (HasNext select_recv s) as [[b s1]|] eqn:E; [|discriminate].
    destruct (HasNext_effects s b s1 E) as (Ho & evs & Ht & Hq & Hr & Ha & Hw).
    destruct (HasNext_post _ _ _ s b s1 E) as (Hb & _).
    intros H. injection H as <- <-.
    exists evs. cbn [after_Next att trace]. split; [exact Ht|].
    split; [|auto].
    unfold owed at 1. cbn [waited running is_granted].
    destruct (running (att s1)); simpl; lia.
  - rewrite call_HasNext.
    destruct (HasNext select_recv s) as [[b s1]|] eqn:E; [|discriminate].
    destruct (HasNext_effects s b s1 E) as (Ho & evs & Ht & Hq & Hr & Ha & Hw).
    intros H. injection H as <- <-.
    exists evs. split; [exact Ht|]. split; [|auto].
    cbn [is_granted]. lia.
  - simpl. unfold bind, get_att, ret. intros H. injection H as <- <-.
    exists []. rewrite app_nil_r. repeat split; auto. cbn [is_granted]. simpl. lia.
  - rewrite call_Env. intros H. injection H as <- <-.
    exists []. cbn [trace att]. rewrite app_nil_r. repeat split; auto.
    cbn [is_granted]. simpl. lia.
Qed.

Lemma run_effects (cs : list (Call W)) :
  forall (s : Sys W Chan T) rs s',
    run select_recv cs s = Some (rs, s') ->
    exists evs,
      trace s' = trace s ++ evs /\
      Z.of_nat (queries evs) + owed (att s') = owed (att s) + granted rs /\
      clock_reads evs = queries evs /\
      after_calls evs = waits evs /\
      (waits evs <= queries evs)%nat.
Proof.
  induction cs as [|c cs IH]; intros s rs s' H.
  - simpl in H. injection H as <- <-. exists []. rewrite app_nil_r.
    unfold granted. simpl. repeat split; auto. lia.
  - rewrite run_cons in H.
    destruct (call select_recv c s) as [[r s1]|] eqn:Ec; [|discriminate].
    destruct (run select_recv cs s1) as [[rs1 s2]|] eqn:Er; [|discriminate].
    injection H as <- <-.
    destruct (call_effects c s r s1 Ec) as (e1 & Ht1 & Hq1 & Hr1 & Ha1 & Hw1).
    destruct (IH s1 rs1 s2 Er) as (e2 & Ht2 & Hq2 & Hr2 & Ha2 & Hw2).
    exists (e1 ++ e2). rewrite Ht2, Ht1, <- app_assoc.
    rewrite queries_app, waits_app, clock_reads_app, after_calls_app, granted_cons.
    repeat split; auto; lia.
Qed.


Lemma Start_fresh (S : Type) (StrategyS : Strategy S T) (strategy : S)
    (clk : option (Clock W Chan)) (stp : option Chan) (w : W) :
  trace (Start WallClock strategy clk stp w) = [EvNow] /\
  owed (att (Start WallClock strategy clk stp w)) = 0.
Proof.
  unfold Start.
  destruct (Now match clk with Some c => c | None => WallClock end w).
  split; reflexivity.
Qed.

(** X1.  From Start on, along any calls that return, the Timer has been asked
    exactly once for every Next that returned true, less one while the wait
    after the latest granted attempt is still owed ("NextSleep is called once
    after each iteration has completed"). *)
Theorem Timer_asked_once_per_attempt
    (S : Type) (StrategyS : Strategy S T) (strategy : S)
    (clk : option (Clock W Chan)) (stp : option Chan) (w : W)
    (cs : list (Call W)) (rs : list Result) (s : Sys W Chan T) :
  run select_recv cs (Start WallClock strategy clk stp w) = Some (rs, s) ->
  Z.of_nat (queries (trace s)) + owed (att s) = granted rs.
Proof.
  intros H.
  destruct (Start_fresh S StrategyS strategy clk stp w) as [Ht Ho].
  destruct (run_effects cs _ rs s H) as (evs & Hs & Hq & _).
  rewrite Hs, Ht, queries_app, Ho in *. change (queries [EvNow]) with 0%nat.
  lia.
Qed.

(** X2.  From Start on, along any calls that return, the clock has been read
    once by Start and once for every query of the Timer; After has been
    called once for every select; and there are never more selects than
    queries: nothing is waited for that the Timer did not ask for. *)
Theorem effects_come_in_order
    (S : Type) (StrategyS : Strategy S T) (strategy : S)
    (clk : option (Clock W Chan)) (stp : option Chan) (w : W)
    (cs : list (Call W)) (rs : list Result) (s : Sys W Chan T) :
  run select_recv cs (Start WallClock strategy clk stp w) = Some (rs, s) ->
  clock_reads (trace s) = Datatypes.S (queries (trace s)) /\
  after_calls (trace s) = waits (trace s) /\
  (waits (trace s) <= queries (trace s))%nat.
Proof.
  intros H.
  destruct (Start_fresh S StrategyS strategy clk stp w) as [Ht Ho].
  destruct (run_effects cs _ rs s H) as (evs & Hs & _ & Hr & Ha & Hw).
  rewrite Hs, Ht, queries_app, waits_app, clock_reads_app, after_calls_app.
  change (queries [EvNow]) with 0%nat. change (waits [EvNow]) with 0%nat.
  change (clock_reads [EvNow]) with 1%nat. change (after_calls [EvNow]) with 0%nat.
  repeat split; lia.
Qed.

Lemma call_stopped (c : Call W) (s : Sys W Chan T) :
  running (att s) = false ->
  exists r s', call select_recv c s = Some (r, s') /\
               running (att s') = false /\
               timer (att s') = timer (att s) /\
               count (att s') = count (att s) /\
               trace s' = trace s.
Proof.
  intros Hr.
  assert (Hi : waited (att s) || negb (running (att s)) = true)
    by (rewrite Hr; apply orb_true_r).
  destruct c.
  - rewrite call_Next, (HasNext_idle _ _ _ s Hi).
    eexists _, _. split; [reflexivity|]. cbn [after_Next att trace running timer count].
    rewrite Hr. auto.
  - rewrite call_HasNext, (HasNext_idle _ _ _ s Hi).
    eexists _, _. split; [reflexivity|]. auto.
  - eexists _, _. split; [reflexivity|]. auto.
  - rewrite call_Env. eexists _, _. split; [reflexivity|]. auto.
Qed.

(** X4.  On an Attempt that is not running, every call returns and has no
    effect on the collaborators: the trace, the timer and the count are what
    they were, and the Attempt stays stopped. *)
Theorem stopped_Attempt_is_inert (cs : list (Call W)) (s : Sys W Chan T) :
  running (att s) = false ->
  exists rs s', run select_recv cs s = Some (rs, s') /\
                running (att s') = false /\
                timer (att s') = timer (att s) /\
                count (att s') = count (att s) /\
                trace s' = trace s.
Proof.
  revert s. induction cs as [|c cs IH]; intros s Hr.
  - exists [], s. auto.
  - destruct (call_stopped c s Hr) as (r & s1 & Hc & Hr1 & Ht1 & Hn1 & He1).
    destruct (IH s1 Hr1) as (rs & s2 & Hrun & Hr2 & Ht2 & Hn2 & He2).
    exists (r :: rs), s2. rewrite run_cons, Hc, Hrun.
    repeat split; congruence.
Qed.

(** X5.  With a nil stop channel, under Go's select, a running Attempt only
    stops because its Timer said so: when HasNext returns false the Timer
    has just reported stop, and nothing was waited for. *)
Theorem nil_stop_never_aborts
    (ready : Chan -> W -> bool) (s s' : Sys W Chan T) :
  GoSelect select_recv ready ->
  stop (att s) = None ->
  running (att s) = true ->
  HasNext select_recv s = Some (false, s') ->
  exists now w1 d,
    Now (clock (att s)) (world s) = (now, w1) /\
    NextSleep (timer (att s)) now = ((d, false), timer (att s')) /\
    world s' = w1.
Proof.
  intros GS Hstop Hr H.
  destruct (waited (att s)) eqn:Ew.
  - rewrite HasNext_idle in H by (rewrite Ew; reflexivity). congruence.
  - rewrite (HasNext_owed _ _ _ s Ew Hr) in H.
    destruct (Now (clock (att s)) (world s)) as [now w1] eqn:EN.
    destruct (NextSleep (timer (att s)) now) as [[d ok] tm] eqn:ES.
    destruct ok.
    + destruct (After (clock (att s)) d w1) as [c w2].
      destruct (select_recv c (stop (att s)) w2) as [[k w3]|] eqn:Es;
        [|discriminate].
      destruct (GS c (stop (att s)) w2) as [Hnil _].
      rewrite (Hnil Hstop k w3 Es) in H. discriminate.
    + injection H as <-. exists now, w1, d. cbn [att timer world]. auto.
Qed.

(** X6.  When the Timer continues and the select then takes the stop case,
    Next returns false and does not count an attempt, the Attempt does not
    run any more; the Timer has been advanced all the same and After has been
    called. *)
Theorem stop_won_costs_no_attempt (s : Sys W Chan T)
    (now : Time) (w1 : W) (d : Duration) (tm : T) (c : Chan) (w2 w3 : W) :
  waited (att s) = false ->
  running (att s) = true ->
  Now (clock (att s)) (world s) = (now, w1) ->
  NextSleep (timer (att s)) now = ((d, true), tm) ->
  After (clock (att s)) d w1 = (c, w2) ->
  select_recv c (stop (att s)) w2 = Some (CaseStop, w3) ->
  Next select_recv s =
  Some (false,
        {| att := {| clock := clock (att s); stop := stop (att s);
                     timer := tm; count := count (att s);
                     waited := false; running := false |};
           world := w3;
           trace := trace s ++ [EvNow; EvNextSleep now; EvAfter d; EvSelect] |}).
Proof.
  intros Hw Hr HN HS HA HC.
  rewrite Next_unfold, (HasNext_owed _ _ _ s Hw Hr), HN, HS, HA, HC.
  reflexivity.
Qed.

Lemma wrap_int_succ (z : Z) : wrap_int (wrap_int z + 1) = wrap_int (z + 1).
Proof.
  unfold wrap_int.
  replace ((z + 2 ^ 63) mod 2 ^ 64 - 2 ^ 63 + 1 + 2 ^ 63)
    with ((z + 2 ^ 63) mod 2 ^ 64 + 1) by lia.
  replace (z + 1 + 2 ^ 63) with ((z + 2 ^ 63) + 1) by lia.
  rewrite Z.add_mod_idemp_l by (compute; discriminate). reflexivity.
Qed.


Lemma Next_step (s : Sys W Chan T) (b : bool) (s1 : Sys W Chan T) :
  Next select_recv s = Some (b, s1) ->
  running (att s1) = b /\
  count (att s1) = (if b then wrap_int (count (att s) + 1) else count (att s)) /\
  Z.of_nat (queries (trace s1)) + owed (att s1)
  = Z.of_nat (queries (trace s)) + owed (att s) + (if b then 1 else 0).
Proof.
  intros H.
  assert (Hc : call select_recv CallNext s = Some (RNext b, s1)).
  { cbn [call]. unfold bind. rewrite H. reflexivity. }
  pose proof (call_count _ _ _ CallNext s (RNext b) s1 Hc) as Hn.
  destruct (call_effects CallNext s (RNext b) s1 Hc) as (evs & Ht & Hq & _).
  rewrite Next_unfold in H.
  destruct (HasNext select_recv s) as [[b0 s0]|]; [|discriminate].
  injection H as Hb Hs. split.
  - rewrite <- Hs. exact Hb.
  - cbn [is_granted] in Hn, Hq. rewrite Ht, queries_app.
    destruct b; split; try exact Hn; lia.
Qed.

Lemma retry_loop_exit (try : W -> W) (fuel : nat) :
  forall (n : nat) (s : Sys W Chan T) (c : Z) (m : nat) (s' : Sys W Chan T),
    count (att s) = wrap_int c ->
    retry_loop select_recv fuel try n s = Some (Some m, s') ->
    (n <= m)%nat /\
    running (att s') = false /\
    count (att s') = wrap_int (c + Z.of_nat (m - n)) /\
    Z.of_nat (queries (trace s'))
    = Z.of_nat (queries (trace s)) + owed (att s) + Z.of_nat (m - n).
Proof.
  induction fuel as [|fuel IH]; intros n s c m s' Hc H.
  - discriminate.
  - cbn [retry_loop] in H.
    destruct (Next select_recv s) as [[b s1]|] eqn:EN; [|discriminate].
    destruct (Next_step s b s1 EN) as (Hr & Hn & Hq).
    destruct b.
    + apply IH with (c := c + 1) in H.
      * cbn [att trace] in H. destruct H as (Hle & Hr' & Hn' & Hq').
        split; [lia|]. split; [exact Hr'|]. split.
        -- rewrite Hn'. f_equal. lia.
        -- rewrite Hq'. lia.
      * cbn [att]. rewrite Hn, Hc. apply wrap_int_succ.
    + injection H as <- <-.
      split; [lia|]. split; [exact Hr|]. split.
      * rewrite Hn, Hc, Nat.sub_diag. f_equal. simpl. lia.
      * unfold owed in Hq at 1. rewrite Hr, orb_true_r in Hq.
        rewrite Nat.sub_diag. simpl. lia.
Qed.

(** X8.  When the loop [for a := Start(...); a.Next(); { try() }] ends, its
    body has run at least once, the Attempt is not running, Count is the
    number of runs of the body (as an [int]) and the Timer has been asked
    once per run. *)
Theorem retry_loop_counts_attempts
    (S : Type) (StrategyS : Strategy S T) (strategy : S)
    (clk : option (Clock W Chan)) (stp : option Chan) (w : W)
    (try : W -> W) (fuel n : nat) (s : Sys W Chan T) :
  retry_loop select_recv fuel try 0 (Start WallClock strategy clk stp w)
  = Some (Some n, s) ->
  (1 <= n)%nat /\
  running (att s) = false /\
  Count s = Some (wrap_int (Z.of_nat n), s) /\
  queries (trace s) = n.
Proof.
  intros H.
  assert (H0 : count (att (Start WallClock strategy clk stp w)) = wrap_int 0).
  { unfold Start.
    destruct (Now match clk with Some c0 => c0 | None => WallClock end w).
    reflexivity. }
  destruct (Start_fresh S StrategyS strategy clk stp w) as [Ht Ho].
  pose proof H as H'.
  apply retry_loop_exit with (c := 0) in H; [|exact H0].
  destruct H as (_ & Hr & Hn & Hq).
  rewrite Ht, Ho, Nat.sub_0_r in *. change (queries [EvNow]) with 0%nat in Hq.
  split.
  - destruct fuel as [|fuel]; [discriminate|]. cbn [retry_loop] in H'.
    assert (HN : Next select_recv (Start WallClock strategy clk stp w)
                 = Some (true, after_Next (Start WallClock strategy clk stp w))).
    { rewrite Next_unfold, HasNext_idle.
      - unfold Start.
        destruct (Now match clk with Some c0 => c0 | None => WallClock end w).
        reflexivity.
      - unfold Start.
        destruct (Now match clk with Some c0 => c0 | None => WallClock end w).
        reflexivity. }
    rewrite HN in H'.
    match type of H' with
    | retry_loop _ _ _ _ ?st = _ =>
        destruct (retry_loop_exit try fuel 1 st 1 n s) as (Hle & _);
          [|exact H'|exact Hle]
    end.
    unfold Start.
    destruct (Now match clk with Some c0 => c0 | None => WallClock end w).
    reflexivity.
  - split; [exact Hr|]. split.
    + unfold Count, bind, get_att, ret. rewrite Hn. reflexivity.
    + lia.
Qed.

End MoreFacts.

Section Scripted.

Variable W : Type.
Variable Chan : Type.
Variable WallClock : Clock W Chan.
Variable select_recv : Chan -> option Chan -> W -> option (SelectCase * W).
Variable ready : Chan -> W -> bool.
Hypothesis GS : GoSelect select_recv ready.
Hypothesis select_returns : forall c st w, select_recv c st w <> None.

Lemma scripted_loop (try : W -> W) (script : list (Duration * bool)) :
  forall (fuel n : nat) (ck : Clock W Chan) (cnt : Z) (w : W) (tr : list Event),
    (continues script < fuel)%nat ->
    exists s',
      retry_loop select_recv fuel try n
        {| att := {| clock := ck; stop := None; timer := script; count := cnt;
                     waited := false; running := true |};
           world := w; trace := tr |}
      = Some (Some (n + continues script)%nat, s').
Proof.
  induction script as [|[d ok] rest IH]; intros fuel n ck cnt w tr Hf.
  - destruct fuel as [|fuel]; [simpl in Hf; lia|]. cbn [retry_loop].
    rewrite Next_unfold, HasNext_owed by reflexivity.
    cbn [att clock world timer NextSleep scriptTimer].
    destruct (Now ck w) as [now w1]. cbn [after_Next att running].
    rewrite Nat.add_0_r. eexists. reflexivity.
  - destruct fuel as [|fuel]; [simpl in Hf; lia|]. cbn [retry_loop].
    rewrite Next_unfold, HasNext_owed by reflexivity.
    cbn [att clock world timer stop NextSleep scriptTimer].
    destruct (Now ck w) as [now w1].
    destruct ok.
    + destruct (After ck d w1) as [c w2].
      destruct (select_recv c None w2) as [[k w3]|] eqn:Es;
        [|exfalso; exact (select_returns _ _ _ Es)].
      destruct (GS c None w2) as [Hnil _].
      rewrite (Hnil eq_refl k w3 Es).
      cbn [is_After after_Next att running world trace clock stop timer count].
      cbn [continues] in *.
      destruct (IH fuel (S n) ck (wrap_int (cnt + 1)) (try w3)
                  (tr ++ [EvNow; EvNextSleep now; EvAfter d; EvSelect]))
        as [s' Hs']; [lia|].
      exists s'. rewrite Hs'. f_equal. f_equal. f_equal. lia.
    + cbn [after_Next att running continues]. rewrite Nat.add_0_r.
      eexists. reflexivity.
Qed.

(** X9.  With a nil stop channel, in a world that obeys Go's select and
    whose select always returns, the loop over a timer that answers from a
    script runs its body once more than the script continues before its
    first stop (or its end), whatever the sleeps, the clock and the body;
    two rounds of fuel more than that are enough. *)
Theorem scripted_loop_attempts
    (script : list (Duration * bool)) (clk : option (Clock W Chan)) (w : W)
    (try : W -> W) (fuel : nat) :
  (continues script + 2 <= fuel)%nat ->
  exists s,
    retry_loop select_recv fuel try 0 (Start WallClock script clk None w)
    = Some (Some (1 + continues script)%nat, s).
Proof.
  intros Hf. destruct fuel as [|fuel]; [lia|]. cbn [retry_loop].
  rewrite Next_unfold, HasNext_idle.
  - unfold Start.
    destruct (Now match clk with Some c => c | None => WallClock end w) as [now w'].
    cbn [after_Next att running world trace clock stop timer count waited
         NewTimer scriptStrategy].
    apply scripted_loop. lia.
  - unfold Start.
    destruct (Now match clk with Some c => c | None => WallClock end w).
    reflexivity.
Qed.

End Scripted.

Section MockDriver.

Context {T : Type} {TimerT : Timer T}.

(** X11.  On the mock clock of the tests with a nil stop channel, Next on a
    running Attempt always returns; it returns true unless the Timer was
    asked and reported stop; the mock clock has moved by exactly the sleep
    the Timer asked for (by nothing when the Timer was not asked or
    reported stop) and the wall clock not at all. *)
Theorem mockClock_moves_by_the_sleep
    (tm : T) (n : Z) (wt : bool) (w : Sim.world) (tr : list Event) :
  exists b s',
    Next Sim.select_recv (mock_sys tm n wt true w tr) = Some (b, s') /\
    Sim.wall (world s') = Sim.wall w /\
    b = (wt || snd (fst (NextSleep tm (Sim.mock_now w)))) /\
    Sim.mock_now (world s')
    = Sim.mock_now w
      + (if wt then 0
         else if snd (fst (NextSleep tm (Sim.mock_now w)))
              then fst (fst (NextSleep tm (Sim.mock_now w)))
              else 0).
Proof.
  rewrite mock_Next. destruct wt.
  - eexists _, _. split; [reflexivity|]. cbn [mock_sys world]. repeat split. lia.
  - destruct (NextSleep tm (Sim.mock_now w)) as [[d ok] tm'].
    destruct ok; eexists _, _; (split; [reflexivity|]);
      cbn [mock_sys world fst snd Sim.set_mock_now Sim.wall Sim.mock_now];
      repeat split; lia.
Qed.

(** Once the Attempt has stopped the loop of the driver sees nothing move. *)
Lemma observe_stopped (t0 : Time) (ts : list Duration) :
  forall (tm : T) (n : Z) (wt : bool) (w : Sim.world) (tr : list Event),
    option_map (map (fun o => (fst (fst o), snd (fst o))))
      (observe t0 ts (mock_sys tm n wt false w tr))
    = Some (map (fun _ => (false, 0)) ts).
Proof.
  induction ts as [|ti ts IH]; intros tm n wt w tr; [reflexivity|].
  cbn [observe]. unfold mock_sys at 1. cbn [att world trace].
  rewrite Next_unfold, HasNext_idle
    by (cbn [att waited running]; apply orb_true_r).
  unfold after_Next. cbn [att world trace running clock stop timer count].
  specialize (IH tm n false (Sim.set_mock_now (t0 + ti) w) tr).
  unfold mock_sys in IH.
  destruct (observe t0 ts _) as [obs|]; [|discriminate].
  cbn [option_map map fst snd Sim.mock_now Sim.set_mock_now] in *.
  injection IH as IH. rewrite IH.
  replace (t0 + ti - t0 - ti) with 0 by lia. reflexivity.
Qed.

Lemma observe_owed (t0 : Time) (ts : list Duration) :
  forall (tm : T) (n : Z) (w : Sim.world) (tr : list Event),
    option_map (map (fun o => (fst (fst o), snd (fst o))))
      (observe t0 ts (mock_sys tm n false true w tr))
    = Some (timer_answers tm t0 ts).
Proof.
  induction ts as [|ti ts IH]; intros tm n w tr; [reflexivity|].
  rewrite observe_mock. cbv iota. cbn [timer_answers].
  destruct (NextSleep tm (t0 + ti)) as [[d ok] tm'].
  cbn [fst snd]. destruct ok.
  - specialize (IH tm' (wrap_int (n + 1))
                  (Sim.set_mock_now (t0 + ti + d) (Sim.set_mock_now (t0 + ti) w))
                  (tr ++ [EvNow; EvNextSleep (t0 + ti); EvAfter d; EvSelect])).
    destruct (observe t0 ts _) as [obs|]; [|discriminate].
    cbn [option_map map fst snd] in *. injection IH as IH. rewrite IH. reflexivity.
  - pose proof (observe_stopped t0 ts tm' n false (Sim.set_mock_now (t0 + ti) w)
                  (tr ++ [EvNow; EvNextSleep (t0 + ti)])) as Hst.
    destruct (observe t0 ts _) as [obs|]; [|discriminate].
    cbn [option_map map fst snd] in *. injection Hst as Hst. rewrite Hst.
    reflexivity.
Qed.

End MockDriver.

(** X12.  What the loop of [testStrategy] observes is the timer alone: the
    first Next returns true at once, and the i-th later one returns what the
    timer, asked at [t0 + t], answers: true and its sleep while it
    continues, false and no sleep from its first stop on. *)
Theorem testStrategy_asks_the_timer
    {S T : Type} {TimerT : Timer T} {StrategyS : Strategy S T}
    (strategy : S) (ti : Duration) (ts : list Duration) (w : Sim.world) :
  option_map (map (fun o => (fst (fst o), snd (fst o))))
    (observeStrategy strategy (ti :: ts) w)
  = Some ((true, 0)
            :: timer_answers (NewTimer strategy (Sim.wall w)) (Sim.wall w) ts).
Proof.
  unfold observeStrategy, Start.
  cbn [Now Sim.mockClock Sim.mock_now Sim.set_mock_now].
  set (t0 := Sim.wall w).
  match goal with
  | |- context [observe _ _ ?s] =>
      change s with (mock_sys (NewTimer strategy t0) 0 true true
                       (Sim.set_mock_now t0 w) [EvNow])
  end.
  rewrite observe_mock. cbv iota.
  pose proof (observe_owed t0 ts (NewTimer strategy t0) (wrap_int (0 + 1))
                (Sim.set_mock_now (t0 + ti) (Sim.set_mock_now t0 w)) [EvNow]) as H.
  destruct (observe t0 ts _) as [obs|]; [|discriminate].
  cbn [option_map map fst snd] in *. injection H as H. rewrite H. reflexivity.
Qed.

(** X14.  [closeTo] on [int64] durations is true exactly when the wrapped
    difference lies strictly between -20ns and 20ns, or is the most negative
    duration, whose negation wraps to itself. *)
Theorem closeTo_int64_spec (d0 d1 : Duration) :
  closeTo_int64 d0 d1 = true <->
  -20 < wrap_int (d1 - d0) < 20 \/ wrap_int (d1 - d0) = min_int.
Proof.
  unfold closeTo_int64. cbv zeta.
  pose proof (wrap_int_range (d1 - d0)) as Hr.
  set (x := wrap_int (d1 - d0)) in *.
  destruct (Z.ltb_spec x 0) as [Hx|Hx].
  - destruct (Z.eq_dec x min_int) as [He|He].
    + rewrite He. split; [auto|]. intros _. reflexivity.
    + rewrite wrap_int_small by (unfold min_int, max_int in *; lia).
      rewrite Z.ltb_lt. lia.
  - rewrite Z.ltb_lt. pose proof min_int_neg. lia.
Qed.

Section Fires.

Variable W : Type.
Variable Chan : Type.
Variable select_recv : Chan -> option Chan -> W -> option (SelectCase * W).
Context {T : Type} {TimerT : Timer T}.

(** X7.  Under Go's select, when the Timer continues and, at the select,
    the timer channel is ready and the stop channel is not (or is nil), Next
    returns true, counts one more attempt (modulo 2^64) and keeps the timer
    as NextSleep left it. *)
Theorem ready_timer_grants
    (ready : Chan -> W -> bool) (s : Sys W Chan T)
    (now : Time) (w1 : W) (d : Duration) (tm : T) (c : Chan) (w2 : W) :
  GoSelect select_recv ready ->
  waited (att s) = false ->
  running (att s) = true ->
  Now (clock (att s)) (world s) = (now, w1) ->
  NextSleep (timer (att s)) now = ((d, true), tm) ->
  After (clock (att s)) d w1 = (c, w2) ->
  ready c w2 = true ->
  ready_opt ready (stop (att s)) w2 = false ->
  exists s',
    Next select_recv s = Some (true, s') /\
    count (att s') = wrap_int (count (att s) + 1) /\
    timer (att s') = tm /\
    trace s' = trace s ++ [EvNow; EvNextSleep now; EvAfter d; EvSelect].
Proof.
  intros GS Hw Hr HN HS HA Hc Hs.
  rewrite Next_unfold, (HasNext_owed _ _ _ s Hw Hr), HN, HS, HA.
  destruct (GS c (stop (att s)) w2) as [_ G]. rewrite Hc, Hs in G.
  destruct G as [w3 G]. rewrite G.
  eexists. split; [reflexivity|]. auto.
Qed.

End Fires.

Lemma still_GoSelect : GoSelect still_select still_ready.
Proof.
  intros c s w. split.
  - intros _ k w' H. injection H as <- _. reflexivity.
  - unfold still_ready, still_select. destruct s; simpl; eauto. discriminate.
Qed.

Lemma still_select_returns (c : unit) (st : option unit) (w : unit) :
  still_select c st w <> None.
Proof. discriminate. Qed.

Lemma Timer_asked_once_per_attempt_witness :
  run Sim.select_recv [CallNext] s_started = Some ([RNext true], s_first) /\
  Z.of_nat (queries (trace s_first)) + owed (att s_first) = granted [RNext true].
Proof.
  assert (H : run Sim.select_recv [CallNext] s_started = Some ([RNext true], s_first))
    by reflexivity.
  split; [exact H|].
  exact (Timer_asked_once_per_attempt Sim.world Sim.chan Sim.wallClock
           Sim.select_recv _ _ [(7, true); (3, false)] None None w_idle
           [CallNext] [RNext true] s_first H).
Defined.

Lemma effects_come_in_order_witness :
  run Sim.select_recv [CallNext; CallNext] s_started
  = Some ([RNext true; RNext true], s_second) /\
  clock_reads (trace s_second) = Datatypes.S (queries (trace s_second)) /\
  after_calls (trace s_second) = waits (trace s_second) /\
  (waits (trace s_second) <= queries (trace s_second))%nat.
Proof.
  assert (H : run Sim.select_recv [CallNext; CallNext] s_started
              = Some ([RNext true; RNext true], s_second)) by reflexivity.
  split; [exact H|].
  exact (effects_come_in_order Sim.world Sim.chan Sim.wallClock
           Sim.select_recv _ _ [(7, true); (3, false)] None None w_idle
           [CallNext; CallNext] [RNext true; RNext true] s_second H).
Defined.

Lemma stopped_Attempt_is_inert_witness :
  running (att s_final) = false /\
  exists rs s',
    run Sim.select_recv [CallNext; CallHasNext; CallCount] s_final = Some (rs, s') /\
    running (att s') = false /\
    timer (att s') = timer (att s_final) /\
    count (att s') = count (att s_final) /\
    trace s' = trace s_final.
Proof.
  assert (H : running (att s_final) = false) by reflexivity.
  split; [exact H|].
  exact (stopped_Attempt_is_inert Sim.world Sim.chan Sim.select_recv
           [CallNext; CallHasNext; CallCount] s_final H).
Defined.

Lemma nil_stop_never_aborts_witness :
  HasNext Sim.select_recv (mock_sys [(3, false)] 2 false true w_idle [])
  = Some (false, mock_sys [] 2 true false w_idle [EvNow; EvNextSleep 0]) /\
  exists now w1 d,
    Now Sim.mockClock w_idle = (now, w1) /\
    NextSleep [(3, false)] now = ((d, false), []) /\
    w_idle = w1.
Proof.
  assert (H : HasNext Sim.select_recv (mock_sys [(3, false)] 2 false true w_idle [])
              = Some (false, mock_sys [] 2 true false w_idle [EvNow; EvNextSleep 0]))
    by reflexivity.
  split; [exact H|].
  exact (nil_stop_never_aborts Sim.world Sim.chan Sim.select_recv Sim.ready
           (mock_sys [(3, false)] 2 false true w_idle [])
           (mock_sys [] 2 true false w_idle [EvNow; EvNextSleep 0])
           Sim_GoSelect eq_refl eq_refl H).
Defined.

Lemma stop_won_costs_no_attempt_witness :
  Next Sim.select_recv s_cancelled =
  Some (false,
        {| att := {| clock := Sim.wallClock; stop := Some Sim.StopChan;
                     timer := []; count := 1;
                     waited := false; running := false |};
           world := w_stopped;
           trace := [EvNow; EvNextSleep 10; EvAfter 5000000000; EvSelect] |}).
Proof.
  exact (stop_won_costs_no_attempt Sim.world Sim.chan Sim.select_recv s_cancelled
           10 w_stopped 5000000000 [] (Sim.TimerChan 5000000010) w_stopped w_stopped
           eq_refl eq_refl eq_refl eq_refl eq_refl eq_refl).
Defined.

Lemma ready_timer_grants_witness :
  exists s',
    Next Sim.select_recv (mock_sys [(7, true)] 1 false true w_idle [])
    = Some (true, s') /\
    count (att s') = wrap_int (1 + 1) /\
    timer (att s') = [] /\
    trace s' = [EvNow; EvNextSleep 0; EvAfter 7; EvSelect].
Proof.
  exact (ready_timer_grants Sim.world Sim.chan Sim.select_recv Sim.ready
           (mock_sys [(7, true)] 1 false true w_idle [])
           0 w_idle 7 [] Sim.ClosedChan (Sim.set_mock_now 7 w_idle)
           Sim_GoSelect eq_refl eq_refl eq_refl eq_refl eq_refl eq_refl eq_refl).
Defined.

Lemma retry_loop_counts_attempts_witness :
  retry_loop Sim.select_recv 5 (fun w => w) 0 s_started
  = Some (Some 2%nat, s_exhausted) /\
  (1 <= 2)%nat /\
  running (att s_exhausted) = false /\
  Count s_exhausted = Some (wrap_int (Z.of_nat 2), s_exhausted) /\
  queries (trace s_exhausted) = 2%nat.
Proof.
  assert (H : retry_loop Sim.select_recv 5 (fun w => w) 0 s_started
              = Some (Some 2%nat, s_exhausted)) by (vm_compute; reflexivity).
  split; [exact H|].
  exact (retry_loop_counts_attempts Sim.world Sim.chan Sim.wallClock
           Sim.select_recv _ _ [(7, true); (3, false)] None None w_idle
           (fun w => w) 5 2 s_exhausted H).
Defined.

Lemma scripted_loop_attempts_witness :
  GoSelect still_select still_ready /\
  (forall c st w, still_select c st w <> None) /\
  (continues script_twice + 2 <= 6)%nat /\
  exists s,
    retry_loop still_select 6 (fun w => w) 0
      (Start still_clock script_twice
         (Some still_clock) None tt)
    = Some (Some (1 + continues script_twice)%nat, s).
Proof.
  assert (H : (continues script_twice + 2 <= 6)%nat)
    by (simpl; lia).
  split; [exact still_GoSelect|]. split; [exact still_select_returns|].
  split; [exact H|].
  exact (scripted_loop_attempts unit unit still_clock still_select still_ready
           still_GoSelect still_select_returns
           script_twice
           (Some still_clock) tt (fun w => w) 6 H).
Defined.

Section ExampleFacts.

Variable W : Type.
Variable Chan : Type.
Variable WallClock : Clock W Chan.
Variable select_recv : Chan -> option Chan -> W -> option (SelectCase * W).
Context {T : Type} {TimerT : Timer T}.
Variable X : Type.
Variable E : Type.
Variable doSomething : W -> (X * option E) * W.
Variable shouldRetry : option E -> bool.
Variable doSomethingWith : X -> W -> W.

Lemma Next_when_ready (s : Sys W Chan T) :
  waited (att s) = true -> running (att s) = true ->
  Next select_recv s = Some (true, after_Next s).
Proof.
  intros Hw Hr. rewrite Next_unfold, HasNext_idle by (rewrite Hw; reflexivity).
  rewrite Hr. reflexivity.
Qed.

Lemma example_loop_exit (fuel : nat) :
  forall (errs : list (option E)) (s : Sys W Chan T)
         (out : Exit E) (log : list (option E)) (s' : Sys W Chan T),
    last errs None = None \/ (waited (att s) = true /\ running (att s) = true) ->
    example_loop select_recv doSomething shouldRetry doSomethingWith fuel errs s
    = Some (Some (out, log), s') ->
    (length errs <= length log)%nat /\
    (forall s1, Next select_recv s = Some (true, s1) ->
                (length errs < length log)%nat) /\
    match out with
    | ReturnErr e =>
        last log None = Some e /\
        (shouldRetry (Some e) = false \/ running (att s') = false)
    | TimedOut => last log None = None /\ running (att s') = false
    end.
Proof.
  induction fuel as [|fuel IH]; intros errs s out log s' Hpre H.
  - discriminate.
  - cbn [example_loop] in H.
    destruct (Next select_recv s) as [[b s1]|] eqn:EN; [|discriminate].
    destruct (Next_step _ _ _ s b s1 EN) as (Hr1 & _).
    destruct b.
    + destruct (doSomething (world s1)) as [[x err] w1].
      assert (Hlen : length (errs ++ [err]) = Datatypes.S (length errs))
        by (rewrite length_app; simpl; lia).
      assert (Hrest :
        forall s3 : Sys W Chan T,
          (shouldRetry err = false \/ running (att s3) = false) ->
          match err with
          | Some e => Some (Some (ReturnErr e, errs ++ [err]), s3)
          | None =>
              example_loop select_recv doSomething shouldRetry doSomethingWith
                fuel (errs ++ [err])
                {| att := att s3; world := doSomethingWith x (world s3);
                   trace := trace s3 |}
          end = Some (Some (out, log), s') ->
          (length errs < length log)%nat /\
          match out with
          | ReturnErr e =>
              last log None = Some e /\
              (shouldRetry (Some e) = false \/ running (att s') = false)
          | TimedOut => last log None = None /\ running (att s') = false
          end).
      { intros s3 Hwhy H3. destruct err as [e|].
        - injection H3 as <- <- <-. split; [lia|].
          rewrite last_last. split; [reflexivity|exact Hwhy].
        - apply IH in H3; [|left; apply last_last].
          destruct H3 as (Hle & _ & Hout). split; [lia|exact Hout]. }
      destruct (shouldRetry err) eqn:Esr.
      * destruct (HasNext select_recv
                    {| att := att s1; world := w1; trace := trace s1 |})
          as [[b3 s3]|] eqn:EH; [|discriminate].
        destruct (HasNext_post _ _ _ _ b3 s3 EH) as (Hb3 & _ & _ & _ & Hi3 & _).
        destruct b3.
        -- apply IH in H.
           ++ destruct H as (Hle & _ & Hout).
              split; [lia|]. split; [intros; lia|exact Hout].
           ++ right. rewrite <- Hb3 in Hi3. rewrite <- Hb3.
              rewrite orb_false_r in Hi3. auto.
        -- destruct (Hrest s3 (or_intror (eq_sym Hb3)) H) as [Hlt Hout].
           split; [lia|]. split; [intros; exact Hlt|exact Hout].
      * destruct (Hrest _ (or_introl eq_refl) H) as [Hlt Hout].
        split; [lia|]. split; [intros; exact Hlt|exact Hout].
    + injection H as <- <- <-. split; [lia|]. split; [intros; discriminate|].
      split; [|exact Hr1].
      destruct Hpre as [Hl|[Hw Hr]]; [exact Hl|].
      rewrite (Next_when_ready s Hw Hr) in EN. discriminate.
Qed.

(** X10.  The loop of ExampleAttempt_HasNext, whatever doSomething,
    shouldRetry and doSomethingWith do: it calls doSomething at least once;
    when it leaves by [return err], [err] is the error of the last call of
    doSomething and either shouldRetry refused it or no attempt was left;
    when it runs to its end, the last call of doSomething had no error and
    the Attempt is not running. *)
Theorem example_returns_last_error
    (S : Type) (StrategyS : Strategy S T) (strategy : S)
    (clk : option (Clock W Chan)) (stp : option Chan) (w : W)
    (fuel : nat) (out : Exit E) (log : list (option E)) (s : Sys W Chan T) :
  example_loop select_recv doSomething shouldRetry doSomethingWith fuel []
    (Start WallClock strategy clk stp w)
  = Some (Some (out, log), s) ->
  log <> [] /\
  match out with
  | ReturnErr e =>
      last log None = Some e /\
      (shouldRetry (Some e) = false \/ running (att s) = false)
  | TimedOut => last log None = None /\ running (att s) = false
  end.
Proof.
  intros H.
  assert (Hst : waited (att (Start WallClock strategy clk stp w)) = true /\
                running (att (Start WallClock strategy clk stp w)) = true).
  { unfold Start.
    destruct (Now match clk with Some c => c | None => WallClock end w).
    split; reflexivity. }
  destruct (example_loop_exit fuel [] _ out log s (or_introl eq_refl) H)
    as (_ & Hlt & Hout).
  split; [|exact Hout].
  specialize (Hlt _ (Next_when_ready _ (proj1 Hst) (proj2 Hst))).
  intros ->. simpl in Hlt. lia.
Qed.

End ExampleFacts.

Lemma example_returns_last_error_witness :
  example_loop Sim.select_recv doSomething_stub shouldRetry_stub doSomethingWith_stub
    5 [] s_started
  = Some (Some (TimedOut, [None; None]), s_exhausted) /\
  [None; None] <> @nil (option unit) /\
  last [None; None] (@None unit) = None /\
  running (att s_exhausted) = false.
Proof.
  assert (H : example_loop Sim.select_recv doSomething_stub shouldRetry_stub
                doSomethingWith_stub 5 [] s_started
              = Some (Some (TimedOut, [None; None]), s_exhausted))
    by (vm_compute; reflexivity).
  split; [exact H|].
  exact (example_returns_last_error Sim.world Sim.chan Sim.wallClock
           Sim.select_recv Z unit doSomething_stub shouldRetry_stub
           doSomethingWith_stub _ _ [(7, true); (3, false)] None None w_idle
           5 TimedOut [None; None] s_exhausted H).
Defined.
